(** * Blog thumbnail generator: the server endpoints, embedded and verified

    The repository is a Next.js application with four route handlers:

    - [src/app/api/youtube/route.ts]: video lookup ([Lookup]);
    - [src/app/api/generate/route.ts]: text-only image generation ([Generate]);
    - the enhanced generation route, with an optional source image
      ([Enhanced]);
    - the frame extraction route, which shells out to yt-dlp and ffmpeg
      ([Frame]).

    JavaScript strings are sequences of UTF-16 code units, so a string is a
    list of [N]; [String.prototype.length], [slice] and the regular
    expressions of the handlers all count code units.  The regular
    expressions are kept as syntax and run by a backtracking matcher that
    follows ECMAScript's order of attempts (leftmost start, alternatives left
    to right, greedy repetition first).

    The handlers are asynchronous functions that talk to the outside world.
    Each is written in a state-and-exception monad: the state carries the
    ordered trace of outbound calls (and, for frame extraction, the file
    system); the answers of the outside world come from an environment
    record.  [console.log] and [console.error] are not recorded.

    Request bodies are modelled at the types under which the handler's
    method calls are defined: every destructured field is a string or absent
    ([undefined]). *)

From Stdlib Require Import List NArith ZArith Bool Ascii String DecimalString Lia.
Import ListNotations.

Set Implicit Arguments.

(** ** JavaScript strings *)

Definition char := N.
Definition jsstring := list char.

(** An ASCII literal of the source as a JavaScript string. *)
Definition str (s : string) : jsstring :=
  map N_of_ascii (list_ascii_of_string s).

Definition char_eqb (a b : char) : bool := N.eqb a b.

Fixpoint jsstring_eqb (a b : jsstring) : bool :=
  match a, b with
  | [], [] => true
  | x :: a', y :: b' => char_eqb x y && jsstring_eqb a' b'
  | _, _ => false
  end.

(** [${n}] for a non-negative integer. *)
Definition decimal (n : N) : jsstring :=
  str (NilZero.string_of_uint (N.to_uint n)).

(** [!s] is false exactly for the non-empty strings; an absent field is
    falsy too. *)
Definition truthy (s : jsstring) : bool :=
  match s with [] => false | _ :: _ => true end.

Definition truthy_opt (v : option jsstring) : bool :=
  match v with Some s => truthy s | None => false end.

(** [s.slice(0, n)] for a non-negative [n]. *)
Definition slice0 (n : nat) (s : jsstring) : jsstring := firstn n s.

(** [s.startsWith(p)] and the rest of [s] after [p]. *)
Fixpoint strip_prefix (p s : jsstring) : option jsstring :=
  match p with
  | [] => Some s
  | c :: p' =>
      match s with
      | [] => None
      | d :: s' => if char_eqb c d then strip_prefix p' s' else None
      end
  end.

Definition startsWith (p s : jsstring) : bool :=
  match strip_prefix p s with Some _ => true | None => false end.

(** [a.join(sep)] on an array of strings. *)
Fixpoint join (sep : jsstring) (l : list jsstring) : jsstring :=
  match l with
  | [] => []
  | [x] => x
  | x :: l' => x ++ sep ++ join sep l'
  end.

(** [s.split(sep)] for a one-character separator: never an empty array. *)
Fixpoint split (sep : char) (s : jsstring) : list jsstring :=
  match s with
  | [] => [[]]
  | c :: s' =>
      if char_eqb c sep then [] :: split sep s'
      else match split sep s' with
           | [] => [[c]]
           | x :: l => (c :: x) :: l
           end
  end.

(** ** Exceptions, HTTP responses and the handler monad *)

(** A thrown value: an [Error] with its message, or anything else. *)
Inductive exn : Type :=
| JsError (message : jsstring)
| JsThrown.

Inductive result (A : Type) : Type :=
| Ok (a : A)
| Throw (e : exn).
Arguments Ok {A} a.
Arguments Throw {A} e.

(** [NextResponse.json(body, { status })]; the status is 200 when omitted. *)
Record response (B : Type) : Type := Response { status : nat; body : B }.

Definition json_response {B : Type} (b : B) : response B := Response 200 b.

Module Handler.

Definition M (St A : Type) : Type := St -> result A * St.

Definition ret {St A} (a : A) : M St A := fun s => (Ok a, s).

Definition bind {St A B} (m : M St A) (f : A -> M St B) : M St B :=
  fun s =>
    match m s with
    | (Ok a, s') => f a s'
    | (Throw e, s') => (Throw e, s')
    end.

Definition throw {St A} (e : exn) : M St A := fun s => (Throw e, s).

(** A value that is already a result: [await] of a settled promise. *)
Definition await {St A} (r : result A) : M St A := fun s => (r, s).

(** [try { m } catch (e) { h e }]: the state reached before the throw is
    kept. *)
Definition try_catch {St A} (m : M St A) (h : exn -> M St A) : M St A :=
  fun s =>
    match m s with
    | (Ok a, s') => (Ok a, s')
    | (Throw e, s') => h e s'
    end.

End Handler.
Import Handler.

Declare Scope handler_scope.
Delimit Scope handler_scope with handler.
Notation "x <- m ;; k" := (bind m (fun x => k))
  (at level 61, m at next level, right associativity) : handler_scope.
Notation "m ;;; k" := (bind m (fun _ => k))
  (at level 61, right associativity) : handler_scope.

(** ** Regular expressions

    The fragment of ECMAScript regular expressions that the handlers use,
    without flags: literals, character classes, greedy [+] and counted
    repetition of a class, alternation, sequence, numbered capture groups,
    [^] and [$]. *)
Module Regex.

Inductive regex : Type :=
| Lit (l : jsstring)
| Plus (cls : char -> bool)
| Rep (n : nat) (cls : char -> bool)
| Alt (r1 r2 : regex)
| Seq (r1 r2 : regex)
| Group (i : nat) (r : regex)
| Bol
| Eol.

Definition captures := list (nat * jsstring).

Fixpoint capture (i : nat) (c : captures) : option jsstring :=
  match c with
  | [] => None
  | (j, v) :: c' => if Nat.eqb i j then Some v else capture i c'
  end.

(** [m[i]] where group [i] took part in the match (it always does in the
    patterns below, which have no group under an alternative). *)
Definition group_text (i : nat) (c : captures) : jsstring :=
  match capture i c with
  | Some v => v
  | None => []
  end.

(** What was consumed between the input [s] and its suffix [s']. *)
Definition consumed (s s' : jsstring) : jsstring :=
  firstn (List.length s - List.length s') s.

Section Matcher.
(** The continuation receives whether the position is still the start of
    the input, the rest of the input and the captures so far. *)
Let cont := bool -> jsstring -> captures -> option captures.

(** Greedy [cls+]: take one more character first; give back on failure. *)
Fixpoint plus (cls : char -> bool) (s : jsstring) (k : jsstring -> option captures)
  : option captures :=
  match s with
  | [] => None
  | c :: s' =>
      if cls c then
        match plus cls s' k with
        | Some r => Some r
        | None => k s'
        end
      else None
  end.

Fixpoint rep (n : nat) (cls : char -> bool) (s : jsstring) : option jsstring :=
  match n with
  | O => Some s
  | S n' =>
      match s with
      | [] => None
      | c :: s' => if cls c then rep n' cls s' else None
      end
  end.

Fixpoint run (r : regex) (bol : bool) (s : jsstring) (c : captures) (k : cont)
  : option captures :=
  match r with
  | Lit l =>
      match strip_prefix l s with
      | Some s' => k (bol && negb (truthy l)) s' c
      | None => None
      end
  | Plus cls => plus cls s (fun s' => k false s' c)
  | Rep n cls =>
      match rep n cls s with
      | Some s' => k (bol && Nat.eqb n 0) s' c
      | None => None
      end
  | Alt r1 r2 =>
      match run r1 bol s c k with
      | Some res => Some res
      | None => run r2 bol s c k
      end
  | Seq r1 r2 => run r1 bol s c (fun bol' s' c' => run r2 bol' s' c' k)
  | Group i r' =>
      run r' bol s c (fun bol' s' c' => k bol' s' ((i, consumed s s') :: c'))
  | Bol => if bol then k bol s c else None
  | Eol => match s with [] => k bol s c | _ :: _ => None end
  end.

(** The attempt at one start position; group 0 is the whole match. *)
Definition attempt (r : regex) (bol : bool) (s : jsstring) : option captures :=
  run (Group 0 r) bol s [] (fun _ _ c => Some c).

Fixpoint search (r : regex) (bol : bool) (s : jsstring) : option captures :=
  match attempt r bol s with
  | Some c => Some c
  | None =>
      match s with
      | [] => None
      | _ :: s' => search r false s'
      end
  end.
End Matcher.

(** [s.match(r)] for a regular expression without the [g] flag. *)
Definition jsmatch (s : jsstring) (r : regex) : option captures :=
  search r true s.

(** Character classes. *)
Definition none_of (l : list char) : char -> bool :=
  fun c => negb (existsb (char_eqb c) l).

Definition in_range (lo hi : char) (c : char) : bool :=
  N.leb lo c && N.leb c hi.

(** [.] without the [s] flag: anything but a line terminator
    (LF, CR, U+2028, U+2029). *)
Definition dot : char -> bool := none_of [10; 13; 8232; 8233]%N.

End Regex.
Import Regex.

(** ** Video lookup: [src/app/api/youtube/route.ts] *)
Module Lookup.

(** [[a-zA-Z0-9_-]] *)
Definition id_char (c : char) : bool :=
  (in_range 97 122 c || in_range 65 90 c || in_range 48 57 c
   || char_eqb c 95 || char_eqb c 45)%N.

(** [[^&\n?#]] *)
Definition delimiters : list char := [38; 10; 63; 35]%N.

(** [/(?:youtube\.com\/watch\?v=|youtu\.be\/|youtube\.com\/embed\/)([^&\n?#]+)/] *)
Definition url_pattern : regex :=
  Seq (Alt (Lit (str "youtube.com/watch?v="))
        (Alt (Lit (str "youtu.be/"))
             (Lit (str "youtube.com/embed/"))))
      (Group 1 (Plus (none_of delimiters))).

(** [/^([a-zA-Z0-9_-]{11})$/] *)
Definition bare_pattern : regex :=
  Seq Bol (Seq (Group 1 (Rep 11 id_char)) Eol).

Definition patterns : list regex := [url_pattern; bare_pattern].

(** The loop of [extractVideoId] over a list of patterns: the first pattern
    that matches decides, and [match[1]] is returned. *)
Fixpoint extract_with (ps : list regex) (url : jsstring) : option jsstring :=
  match ps with
  | [] => None
  | p :: ps' =>
      match jsmatch url p with
      | Some m => capture 1 m
      | None => extract_with ps' url
      end
  end.

Definition extractVideoId (url : jsstring) : option jsstring :=
  extract_with patterns url.

(** The oEmbed document: only the two fields the handler reads. *)
Record metadata : Type := Metadata {
  title : option jsstring;
  author_name : option jsstring
}.

(** What [fetch] resolves to: [ok] and the outcome of [json()]. *)
Record fetch_response : Type := FetchResponse {
  ok : bool;
  json : result metadata
}.

(** One caption fragment of the transcript library. *)
Record caption : Type := Caption { text : jsstring }.

(** The outside world of one request. *)
Record env : Type := Env {
  fetch : jsstring -> result fetch_response;
  fetchTranscript : jsstring -> result (list caption)
}.

(** Outbound network calls, in the order they are made. *)
Inductive call : Type :=
| Fetch (url : jsstring)
| FetchTranscript (videoId : jsstring).

Definition trace := list call.

Inductive body : Type :=
| ErrorBody (error : jsstring)
| VideoBody (videoId : jsstring) (title author : option jsstring)
            (thumbnailUrl transcript : jsstring).

Record request : Type := Request { url : option jsstring }.

(** [`https://www.youtube.com/oembed?url=https://www.youtube.com/watch?v=${videoId}&format=json`] *)
Definition oembedUrl (videoId : jsstring) : jsstring :=
  str "https://www.youtube.com/oembed?url=https://www.youtube.com/watch?v="
  ++ videoId ++ str "&format=json".

(** [`https://img.youtube.com/vi/${videoId}/maxresdefault.jpg`] *)
Definition thumbnailUrl (videoId : jsstring) : jsstring :=
  str "https://img.youtube.com/vi/" ++ videoId ++ str "/maxresdefault.jpg".

Definition do_fetch (e : env) (u : jsstring) : M trace fetch_response :=
  fun t => (fetch e u, t ++ [Fetch u]).

Definition do_fetchTranscript (e : env) (v : jsstring) : M trace (list caption) :=
  fun t => (fetchTranscript e v, t ++ [FetchTranscript v]).

Local Open Scope handler_scope.

(** [POST]; [request_json] is the outcome of [await request.json()]. *)
Definition POST (e : env) (request_json : result request)
  : M trace (response body) :=
  try_catch
    (req <- await request_json ;;
     if negb (truthy_opt (url req)) then
       ret (Response 400 (ErrorBody (str "URL is required")))
     else
       let u := match url req with Some u => u | None => [] end in
       match extractVideoId u with
       | None => ret (Response 400 (ErrorBody (str "Invalid YouTube URL")))
       | Some videoId =>
           if negb (truthy videoId) then
             ret (Response 400 (ErrorBody (str "Invalid YouTube URL")))
           else
             metadataResponse <- do_fetch e (oembedUrl videoId) ;;
             if negb (ok metadataResponse) then
               ret (Response 400 (ErrorBody (str "Failed to fetch video metadata")))
             else
               metadata <- await (json metadataResponse) ;;
               transcript <-
                 try_catch
                   (transcriptData <- do_fetchTranscript e videoId ;;
                    ret (join (str " ") (map text transcriptData)))
                   (fun _ => ret []) ;;
               ret (json_response
                      (VideoBody videoId (title metadata) (author_name metadata)
                         (thumbnailUrl videoId)
                         (slice0 5000 transcript)))
       end)
    (fun _ => ret (Response 500 (ErrorBody (str "Failed to fetch video data")))).

End Lookup.


(** ** [Buffer.prototype.toString("base64")] *)
Module Base64.

Definition alphabet : jsstring :=
  str "ABCDEFGHIJKLMNOPQRSTUVWXYZabcdefghijklmnopqrstuvwxyz0123456789+/".

Definition sextet (n : N) : char := nth (N.to_nat (n mod 64)) alphabet 0%N.

Definition pad : char := 61%N.

(** Bytes are numbers below 256. *)
Fixpoint encode (bytes : list N) : jsstring :=
  match bytes with
  | [] => []
  | [a] =>
      let n := (a * 65536)%N in
      [sextet (n / 262144); sextet (n / 4096); pad; pad]
  | [a; b] =>
      let n := (a * 65536 + b * 256)%N in
      [sextet (n / 262144); sextet (n / 4096); sextet (n / 64); pad]
  | a :: b :: c :: rest =>
      let n := (a * 65536 + b * 256 + c)%N in
      sextet (n / 262144) :: sextet (n / 4096) :: sextet (n / 64) :: sextet n
      :: encode rest
  end.

End Base64.

(** ** The image provider: the part of [@google/genai] the handlers use *)
Module GenAI.

(** A part of the request: [{ text }] or [{ inlineData: { mimeType, data } }]. *)
Inductive request_part : Type :=
| TextPart (text : jsstring)
| InlinePart (mimeType data : jsstring).

Record params : Type := Params {
  model : jsstring;
  contents : list (list request_part);
  responseModalities : list jsstring
}.

(** A part of the answer: every field is optional. *)
Record inline_data : Type := InlineData {
  mimeType : option jsstring;
  data : option jsstring
}.

Record part : Type := Part {
  text : option jsstring;
  inlineData : option inline_data
}.

Record content : Type := Content { parts : option (list part) }.
Record candidate : Type := Candidate { content_of : option content }.
Record generate_response : Type := GenerateResponse {
  candidates : option (list candidate)
}.

(** [response.candidates && response.candidates[0]?.content?.parts] *)
Definition first_candidate_parts (r : generate_response) : option (list part) :=
  match candidates r with
  | Some (c :: _) =>
      match content_of c with
      | Some ct => parts ct
      | None => None
      end
  | _ => None
  end.

(** [part.inlineData?.data] *)
Definition part_data (p : part) : option jsstring :=
  match inlineData p with
  | Some d => data d
  | None => None
  end.

(** One turn of the loop over the parts: both assignments overwrite. *)
Definition scan_step (acc : jsstring * option jsstring) (p : part)
  : jsstring * option jsstring :=
  let promptUsed :=
    match text p with
    | Some t => if truthy t then t else fst acc
    | None => fst acc
    end in
  let imageData :=
    match part_data p with
    | Some d => if truthy d then Some d else snd acc
    | None => snd acc
    end in
  (promptUsed, imageData).

(** The loop that finds the image part, from the initial [promptUsed]. *)
Definition scan (promptUsed : jsstring) (r : generate_response)
  : jsstring * option jsstring :=
  match first_candidate_parts r with
  | Some ps => fold_left scan_step ps (promptUsed, None)
  | None => (promptUsed, None)
  end.

Inductive body : Type :=
| ErrorBody (error : jsstring)
| ImageBody (imagePrompt imageData : jsstring) (width height : N).

(** Outbound calls of the generation handlers. *)
Inductive call : Type :=
| Fetch (url : jsstring)
| GenerateContent (apiKey : jsstring) (p : params).

Definition trace := list call.

(** [error instanceof Error ? error.message : "Failed to generate image"] *)
Definition error_message (e : exn) : jsstring :=
  match e with
  | JsError m => m
  | JsThrown => str "Failed to generate image"
  end.

(** [${v}] for a field that is a string or [undefined]. *)
Definition interpolate (v : option jsstring) : jsstring :=
  match v with
  | Some s => s
  | None => str "undefined"
  end.

(** [style || "modern, clean, professional"] *)
Definition style_or_default (style : option jsstring) : jsstring :=
  match style with
  | Some s => if truthy s then s else str "modern, clean, professional"
  | None => str "modern, clean, professional"
  end.

(** [transcript ? `<label>${transcript.slice(0, n)}` : ""] *)
Definition context_line (label : string) (n : nat) (transcript : option jsstring)
  : jsstring :=
  match transcript with
  | Some t => if truthy t then str label ++ slice0 n t else []
  | None => []
  end.

Definition SHOPIFY_IMAGE_WIDTH : N := 1200.
Definition SHOPIFY_IMAGE_HEIGHT : N := 628.

(** The prompt of generation from scratch, the same text in both handlers. *)
Definition generation_prompt (title transcript style : option jsstring) : jsstring :=
  str "Create a professional, high-quality blog featured image for the following content:

Topic: " ++ interpolate title ++ str "
" ++ context_line "Context: " 1500 transcript ++ str "

Requirements:
- Style: " ++ style_or_default style ++ str "
- Aspect ratio: 16:9 (horizontal, suitable for "
  ++ decimal SHOPIFY_IMAGE_WIDTH ++ str "x" ++ decimal SHOPIFY_IMAGE_HEIGHT ++ str ")
- NO text, words, or letters in the image
- Visually striking and eye-catching for a blog header
- Professional quality, photorealistic or high-quality illustration
- Rich colors and good composition
- Represents the main theme/topic clearly".

Definition image_params (ps : list request_part) : params :=
  Params (str "gemini-2.5-flash-image") [ps] [str "TEXT"; str "IMAGE"].

(** The end of both handlers: 500 without image data, else the image. *)
Definition respond (found : jsstring * option jsstring) : response body :=
  match snd found with
  | Some imageData =>
      if truthy imageData then
        json_response
          (ImageBody (fst found) (str "data:image/png;base64," ++ imageData)
             SHOPIFY_IMAGE_WIDTH SHOPIFY_IMAGE_HEIGHT)
      else
        Response 500
          (ErrorBody (str "Failed to generate image - no image data in response"))
  | None =>
      Response 500
        (ErrorBody (str "Failed to generate image - no image data in response"))
  end.

End GenAI.

(** ** Text-only generation: [src/app/api/generate/route.ts] *)
Module Generate.
Import GenAI.

Record env : Type := Env {
  GEMINI_API_KEY : option jsstring;
  generateContent : jsstring -> params -> result generate_response
}.

Record request : Type := Request {
  title : option jsstring;
  transcript : option jsstring;
  style : option jsstring
}.

Definition do_generateContent (e : env) (apiKey : jsstring) (p : params)
  : M trace generate_response :=
  fun t => (generateContent e apiKey p, t ++ [GenerateContent apiKey p]).

Local Open Scope handler_scope.

Definition POST (e : env) (request_json : result request)
  : M trace (response body) :=
  try_catch
    (req <- await request_json ;;
     if negb (truthy_opt (GEMINI_API_KEY e)) then
       ret (Response 500 (ErrorBody (str "GEMINI_API_KEY not configured")))
     else
       let apiKey := match GEMINI_API_KEY e with Some k => k | None => [] end in
       let imagePrompt :=
         generation_prompt (title req) (transcript req) (style req) in
       response <- do_generateContent e apiKey
                     (image_params [TextPart imagePrompt]) ;;
       ret (respond (scan imagePrompt response)))
    (fun error => ret (Response 500 (ErrorBody (error_message error)))).

End Generate.

(** ** Generation with an optional source image: the enhanced route *)
Module Enhanced.
Import GenAI.

Record env : Type := Env {
  GEMINI_API_KEY : option jsstring;
  (** [fetch(url)] then [arrayBuffer()]: the bytes of the body, whatever
      the status of the response. *)
  fetch : jsstring -> result (list N);
  generateContent : jsstring -> params -> result generate_response
}.

Record request : Type := Request {
  title : option jsstring;
  transcript : option jsstring;
  style : option jsstring;
  sourceImage : option jsstring;
  mode : option jsstring
}.

(** [/^data:([^;]+);base64,(.+)$/] *)
Definition data_uri_pattern : regex :=
  Seq Bol
    (Seq (Lit (str "data:"))
       (Seq (Group 1 (Plus (none_of [59%N])))
          (Seq (Lit (str ";base64,"))
             (Seq (Group 2 (Plus dot)) Eol)))).

(** [mode === "enhance"] *)
Definition is_enhance (mode : option jsstring) : bool :=
  match mode with
  | Some m => jsstring_eqb m (str "enhance")
  | None => false
  end.

Definition enhancement_prompt (title transcript style : option jsstring) : jsstring :=
  str "Transform this image into a professional Shopify blog featured image.

Topic context: " ++ interpolate title ++ str "
" ++ context_line "Content context: " 1000 transcript ++ str "

Enhancement requirements:
- Apply a " ++ style_or_default style ++ str " style
- Optimize for blog header format (16:9 aspect ratio, "
  ++ decimal SHOPIFY_IMAGE_WIDTH ++ str "x" ++ decimal SHOPIFY_IMAGE_HEIGHT ++ str ")
- Enhance colors, contrast, and visual appeal
- Make it more eye-catching and professional
- Keep the main subject/content from the original
- DO NOT add any text, words, or letters
- Create a polished, high-quality result suitable for a professional blog".

Definition do_fetch (e : env) (u : jsstring) : M trace (list N) :=
  fun t => (fetch e u, t ++ [Fetch u]).

Definition do_generateContent (e : env) (apiKey : jsstring) (p : params)
  : M trace generate_response :=
  fun t => (generateContent e apiKey p, t ++ [GenerateContent apiKey p]).

Local Open Scope handler_scope.

Definition fetchImageAsBase64 (e : env) (u : jsstring) : M trace jsstring :=
  arrayBuffer <- do_fetch e u ;;
  ret (Base64.encode arrayBuffer).

(** The source image of enhancement mode as [(mimeType, imageBase64)]. *)
Definition source_image_part (e : env) (sourceImage : jsstring)
  : M trace (jsstring * jsstring) :=
  if startsWith (str "data:") sourceImage then
    match jsmatch sourceImage data_uri_pattern with
    | Some matches => ret (group_text 1 matches, group_text 2 matches)
    | None => throw (JsError (str "Invalid base64 image format"))
    end
  else
    imageBase64 <- fetchImageAsBase64 e sourceImage ;;
    ret (str "image/jpeg", imageBase64).

(** The content parts, by mode. *)
Definition build_parts (e : env) (req : request) : M trace (list request_part) :=
  if is_enhance (mode req) && truthy_opt (sourceImage req) then
    let src := match sourceImage req with Some s => s | None => [] end in
    img <- source_image_part e src ;;
    ret [InlinePart (fst img) (snd img);
         TextPart (enhancement_prompt (title req) (transcript req) (style req))]
  else
    ret [TextPart (generation_prompt (title req) (transcript req) (style req))].

(** [mode === "enhance" ? "Enhanced from source image" : "AI generated"] *)
Definition default_prompt (mode : option jsstring) : jsstring :=
  if is_enhance mode then str "Enhanced from source image"
  else str "AI generated".

Definition POST (e : env) (request_json : result request)
  : M trace (response body) :=
  try_catch
    (req <- await request_json ;;
     if negb (truthy_opt (GEMINI_API_KEY e)) then
       ret (Response 500 (ErrorBody (str "GEMINI_API_KEY not configured")))
     else
       let apiKey := match GEMINI_API_KEY e with Some k => k | None => [] end in
       ps <- build_parts e req ;;
       response <- do_generateContent e apiKey (image_params ps) ;;
       ret (respond (scan (default_prompt (mode req)) response)))
    (fun error => ret (Response 500 (ErrorBody (error_message error)))).

End Enhanced.

(** ** JavaScript numbers, as far as the timestamp needs them

    A number is tracked when it is an integer that a double holds exactly;
    every other double (NaN, a fraction, an infinity, an integer past
    2^53) is [Untracked], and so is the result of arithmetic on it.  The two
    zeros are not told apart. *)
Module JsNumber.

Inductive jsnumber : Type :=
| Int (z : Z)
| Untracked.

Definition exact (z : Z) : jsnumber :=
  if (Z.abs z <=? 2 ^ 53)%Z then Int z else Untracked.

Definition mul (a b : jsnumber) : jsnumber :=
  match a, b with
  | Int x, Int y => exact (x * y)
  | _, _ => Untracked
  end.

Definition add (a b : jsnumber) : jsnumber :=
  match a, b with
  | Int x, Int y => exact (x + y)
  | _, _ => Untracked
  end.

(** White space and line terminators, as [trim] and [Number] strip them. *)
Definition is_space (c : char) : bool :=
  existsb (char_eqb c)
    [9; 10; 11; 12; 13; 32; 160; 5760; 8232; 8233; 8239; 8287; 12288; 65279]%N
  || in_range 8192%N 8202%N c.

Fixpoint drop_space (s : jsstring) : jsstring :=
  match s with
  | [] => []
  | c :: s' => if is_space c then drop_space s' else s
  end.

(** [s.trim()] *)
Definition trim (s : jsstring) : jsstring :=
  rev (drop_space (rev (drop_space s))).

Definition is_digit (c : char) : bool := in_range 48%N 57%N c.

(** The value of a string of decimal digits, most significant first. *)
Definition digits_value (s : jsstring) : Z :=
  fold_left (fun acc c => (acc * 10 + (Z.of_N c - 48))%Z) s 0%Z.

(** [Number(s)]: blank is 0; an optionally signed run of decimal digits is
    its value; the other literals and the strings that are no number are
    not tracked. *)
Definition Number (s : jsstring) : jsnumber :=
  match trim s with
  | [] => Int 0
  | c :: t =>
      if is_digit c && forallb is_digit t then exact (digits_value (c :: t))
      else if (char_eqb c 43%N || char_eqb c 45%N) && truthy t && forallb is_digit t then
        exact (if char_eqb c 45%N then - digits_value t else digits_value t)
      else Untracked
  end.

End JsNumber.


(** ** Frame extraction: the route that runs yt-dlp and ffmpeg *)
Module Frame.
Import JsNumber.

(** [parseTimestamp] *)
Definition parseTimestamp (timestamp : jsstring) : jsnumber :=
  match map Number (split 58%N timestamp) with
  | [m; sec] => add (mul m (Int 60)) sec
  | [h; m; sec] => add (add (mul h (Int 3600)) (mul m (Int 60))) sec
  | _ => Int 0
  end.

(** [parseTimestamp(timestamp || "0:00")] *)
Definition requested_seconds (timestamp : option jsstring) : jsnumber :=
  parseTimestamp
    match timestamp with
    | Some t => if truthy t then t else str "0:00"
    | None => str "0:00"
    end.

(** The two command lines, by their interpolated values:
    [yt-dlp -f "best[height<=720]" --get-url "<videoUrl>"] and
    [ffmpeg -ss <seconds> -i "<directUrl>" -vframes 1 -q:v 2 "<framePath>"]. *)
Inductive command : Type :=
| YtDlp (videoUrl : jsstring)
| Ffmpeg (seconds : jsnumber) (directUrl framePath : jsstring).

(** The local disk: paths and the bytes stored under them. *)
Definition filesystem := list (jsstring * list N).

Definition has_path (p : jsstring) (entry : jsstring * list N) : bool :=
  jsstring_eqb (fst entry) p.

(** The outside world of one request.  A child process may write files
    whether or not it ends well. *)
Record env : Type := Env {
  tmpdir : jsstring;
  path_join : jsstring -> jsstring -> jsstring;
  now_video : N;
  now_frame : N;
  exec : command -> N -> filesystem -> result jsstring * filesystem;
  (** The error the system raises on deleting an existing path, if any. *)
  unlink_error : jsstring -> option exn
}.

(** Child processes started, with their timeouts in milliseconds. *)
Inductive call : Type :=
| Exec (cmd : command) (timeout : N).

Record state : Type := State {
  calls : list call;
  files : filesystem
}.

Inductive body : Type :=
| ErrorBody (error : jsstring)
| FrameBody (frameData : jsstring) (note : option jsstring).

Record request : Type := Request {
  videoId : option jsstring;
  timestamp : option jsstring
}.

(** [execAsync(cmd, { timeout })]: resolves to the standard output. *)
Definition execAsync (e : env) (cmd : command) (timeout : N) : M state jsstring :=
  fun st =>
    let (r, fs') := exec e cmd timeout (files st) in
    (r, State (calls st ++ [Exec cmd timeout]) fs').

Definition existsSync (p : jsstring) : M state bool :=
  fun st => (Ok (existsb (has_path p) (files st)), st).

Definition readFileSync (p : jsstring) : M state (list N) :=
  fun st =>
    match find (has_path p) (files st) with
    | Some entry => (Ok (snd entry), st)
    | None =>
        (Throw (JsError (str "ENOENT: no such file or directory, open '"
                         ++ p ++ str "'")), st)
    end.

Definition unlinkSync (e : env) (p : jsstring) : M state unit :=
  fun st =>
    if existsb (has_path p) (files st) then
      match unlink_error e p with
      | Some err => (Throw err, st)
      | None =>
          (Ok tt, State (calls st)
                    (filter (fun entry => negb (has_path p entry)) (files st)))
      end
    else
      (Throw (JsError (str "ENOENT: no such file or directory, unlink '"
                       ++ p ++ str "'")), st).

Local Open Scope handler_scope.

(** The clean-up block, the same in the success path and in the outer
    [catch]. *)
Definition cleanup (e : env) (videoPath framePath : jsstring) : M state unit :=
  try_catch
    (hasVideo <- existsSync videoPath ;;
     (if hasVideo then unlinkSync e videoPath else ret tt) ;;;
     hasFrame <- existsSync framePath ;;
     if hasFrame then unlinkSync e framePath else ret tt)
    (fun _ => ret tt).

(** [error instanceof Error ? error.message : "Failed to extract frame"] *)
Definition error_message (e : exn) : jsstring :=
  match e with
  | JsError m => m
  | JsThrown => str "Failed to extract frame"
  end.

Definition videoPath (e : env) : jsstring :=
  path_join e (tmpdir e) (str "video-" ++ decimal (now_video e) ++ str ".mp4").

Definition framePath (e : env) : jsstring :=
  path_join e (tmpdir e) (str "frame-" ++ decimal (now_frame e) ++ str ".jpg").

(** [`https://www.youtube.com/watch?v=${videoId}`] *)
Definition watch_url (videoId : jsstring) : jsstring :=
  str "https://www.youtube.com/watch?v=" ++ videoId.

(** [`https://img.youtube.com/vi/${videoId}/maxresdefault.jpg`] *)
Definition thumbnail_url (videoId : jsstring) : jsstring :=
  str "https://img.youtube.com/vi/" ++ videoId ++ str "/maxresdefault.jpg".

Definition fallback_note : jsstring :=
  str "Frame extraction requires yt-dlp and ffmpeg. Using thumbnail as fallback.".

(** The inner [try]: [None] when both tools ended well, and the response
    that the inner [catch] returns otherwise. *)
Definition run_tools (e : env) (videoId : jsstring) (seconds : jsnumber)
  : M state (option (response body)) :=
  let videoUrl := watch_url videoId in
  try_catch
    (formatInfo <- execAsync e (YtDlp videoUrl) 30000 ;;
     let directUrl := hd [] (split 10%N (trim formatInfo)) in
     execAsync e (Ffmpeg seconds directUrl (framePath e)) 60000 ;;;
     ret None)
    (fun dlError =>
       let thumbnailUrl := thumbnail_url videoId in
       ret (Some (json_response (FrameBody thumbnailUrl (Some fallback_note))))).

Definition POST (e : env) (request_json : result request)
  : M state (response body) :=
  try_catch
    (req <- await request_json ;;
     if negb (truthy_opt (videoId req)) then
       ret (Response 400 (ErrorBody (str "Video ID is required")))
     else
       let videoId := match videoId req with Some v => v | None => [] end in
       let seconds := requested_seconds (timestamp req) in
       fallback <- run_tools e videoId seconds ;;
       match fallback with
       | Some resp => ret resp
       | None =>
           extracted <- existsSync (framePath e) ;;
           if negb extracted then
             ret (Response 500 (ErrorBody (str "Failed to extract frame")))
           else
             frameBuffer <- readFileSync (framePath e) ;;
             let base64Frame := Base64.encode frameBuffer in
             cleanup e (videoPath e) (framePath e) ;;;
             ret (json_response
                    (FrameBody (str "data:image/jpeg;base64," ++ base64Frame) None))
       end)
    (fun error =>
       cleanup e (videoPath e) (framePath e) ;;;
       ret (Response 500 (ErrorBody (error_message error)))).

End Frame.


(** ** The page: the state of the client component and its two requests

    The component keeps its state in seven [useState] cells.  A handler
    reads the cells of the render it was created in and writes new values;
    [fetchVideoData] and [generateImage] are modelled by the state they
    leave when they return, given what [fetch] and [response.json()]
    produced. *)
Module Page.

Record page : Type := PageState {
  url : jsstring;
  videoData : option Lookup.body;
  generatedImage : option GenAI.body;
  style : jsstring;
  loading : bool;
  generating : bool;
  error : jsstring
}.

(** The cells at the first render. *)
Definition initial : page :=
  PageState [] None None (str "modern and professional") false false [].

(** [response.ok]: the status is in the range 200-299. *)
Definition response_ok {B : Type} (r : response B) : bool :=
  Nat.leb 200 (status r) && Nat.leb (status r) 299.

(** [err instanceof Error ? err.message : "An error occurred"] *)
Definition caught_message (err : exn) : jsstring :=
  match err with
  | JsError m => m
  | JsThrown => str "An error occurred"
  end.

(** [data.error || "Failed to fetch video data"] *)
Definition lookup_error (data : Lookup.body) : jsstring :=
  match data with
  | Lookup.ErrorBody e => if truthy e then e else str "Failed to fetch video data"
  | Lookup.VideoBody _ _ _ _ _ => str "Failed to fetch video data"
  end.

(** [data.error || "Failed to generate image"] *)
Definition generate_error (data : GenAI.body) : jsstring :=
  match data with
  | GenAI.ErrorBody e => if truthy e then e else str "Failed to generate image"
  | GenAI.ImageBody _ _ _ _ => str "Failed to generate image"
  end.

(** The body of the request to [/api/youtube]: [JSON.stringify({ url })]. *)
Definition lookup_request (p : page) : Lookup.request :=
  Lookup.Request (Some (url p)).

(** The body of the request to [/api/generate]: the title and the
    transcript of the video data and the style; an absent field is left
    out by [JSON.stringify]. *)
Definition generate_request (p : page) (data : Lookup.body) : Generate.request :=
  match data with
  | Lookup.VideoBody _ title _ _ transcript =>
      Generate.Request title (Some transcript) (Some (style p))
  | Lookup.ErrorBody _ => Generate.Request None None (Some (style p))
  end.

(** [fetchVideoData]; [outcome] is what the [try] block got from [fetch]
    and [response.json()]. *)
Definition fetchVideoData (outcome : result (response Lookup.body)) (p : page)
  : page :=
  let cleared := PageState (url p) None None (style p) true (generating p) [] in
  let settled :=
    match outcome with
    | Ok r =>
        if response_ok r then
          PageState (url cleared) (Some (body r)) (generatedImage cleared)
            (style cleared) (loading cleared) (generating cleared) (error cleared)
        else
          PageState (url cleared) (videoData cleared) (generatedImage cleared)
            (style cleared) (loading cleared) (generating cleared)
            (lookup_error (body r))
    | Throw err =>
        PageState (url cleared) (videoData cleared) (generatedImage cleared)
          (style cleared) (loading cleared) (generating cleared)
          (caught_message err)
    end in
  PageState (url settled) (videoData settled) (generatedImage settled)
    (style settled) false (generating settled) (error settled).

(** [generateImage] *)
Definition generateImage (outcome : result (response GenAI.body)) (p : page)
  : page :=
  match videoData p with
  | None => p
  | Some _ =>
      let started :=
        PageState (url p) (videoData p) (generatedImage p) (style p)
          (loading p) true [] in
      let settled :=
        match outcome with
        | Ok r =>
            if response_ok r then
              PageState (url started) (videoData started) (Some (body r))
                (style started) (loading started) (generating started)
                (error started)
            else
              PageState (url started) (videoData started)
                (generatedImage started) (style started) (loading started)
                (generating started) (generate_error (body r))
        | Throw err =>
            PageState (url started) (videoData started) (generatedImage started)
              (style started) (loading started) (generating started)
              (caught_message err)
        end in
      PageState (url settled) (videoData settled) (generatedImage settled)
        (style settled) (loading settled) false (error settled)
  end.

(** The page against the two servers: the response the handler produces
    is the response the page reads. *)
Definition lookup_round (e : Lookup.env) (p : page) : page :=
  fetchVideoData (fst (Lookup.POST e (Ok (lookup_request p)) [])) p.

Definition generate_round (e : Generate.env) (p : page) : page :=
  match videoData p with
  | None => p
  | Some data =>
      generateImage (fst (Generate.POST e (Ok (generate_request p data)) [])) p
  end.

End Page.

(** * The vocabulary of the statements

    Notions that the properties below are stated with, and the outside
    worlds they are tried in. *)

Module RegexTerms.

(** The class does not go on at the head of [rest]. *)
Definition stops (cls : char -> bool) (rest : jsstring) : Prop :=
  match rest with
  | [] => True
  | c :: _ => cls c = false
  end.

End RegexTerms.
Import RegexTerms.

Module LookupTerms.
Import Lookup.

(** The three openings of [url_pattern]. *)
Definition shapes : list jsstring :=
  [str "youtube.com/watch?v="; str "youtu.be/"; str "youtube.com/embed/"].

(** The attempt of one opening followed by the capture group. *)
Definition opening_attempt (l s : jsstring) : option captures :=
  match strip_prefix l s with
  | Some s' =>
      plus (none_of delimiters) s'
        (fun s'' => Some [(0, consumed s s''); (1, consumed s' s'')])
  | None => None
  end.

(** No character of [before] is [y]. *)
Definition no_y (before : jsstring) : bool :=
  forallb (fun a => negb (char_eqb a 121%N)) before.

(** An outside world in which every call fails. *)
Definition offline : env :=
  Env (fun _ => Throw JsThrown) (fun _ => Throw JsThrown).

(** A world where oEmbed answers and the transcript provider throws. *)
Definition no_captions : env :=
  Env (fun _ => Ok (FetchResponse true
                      (Ok (Metadata (Some (str "A title")) (Some (str "An author"))))))
      (fun _ => Throw (JsError (str "Transcript is disabled on this video"))).

(** A world with three caption fragments. *)
Definition three_captions : env :=
  Env (fun _ => Ok (FetchResponse true (Ok (Metadata (Some (str "T")) None))))
      (fun _ => Ok [Caption (str "never"); Caption (str "gonna"); Caption (str "give")]).

End LookupTerms.

Module GenerationTerms.
Import GenAI.

(** The non-empty texts and the non-empty image payloads of the parts, in
    order. *)
Definition texts (ps : list part) : list jsstring :=
  flat_map (fun p => match text p with
                     | Some t => if truthy t then [t] else []
                     | None => []
                     end) ps.

Definition images (ps : list part) : list jsstring :=
  flat_map (fun p => match part_data p with
                     | Some d => if truthy d then [d] else []
                     | None => []
                     end) ps.

Definition answered_parts (r : generate_response) : list part :=
  match first_candidate_parts r with
  | Some ps => ps
  | None => []
  end.

(** The shape [data:<mime>;base64,<payload>]: a non-empty type without
    [;] and a non-empty payload without line terminators. *)
Definition data_uri_shaped (s : jsstring) : Prop :=
  exists mime payload,
    s = str "data:" ++ mime ++ str ";base64," ++ payload
    /\ mime <> [] /\ forallb (none_of [59%N]) mime = true
    /\ payload <> [] /\ forallb dot payload = true.

(** A provider that answers every call with [r]. *)
Definition generate_world (r : generate_response) : Generate.env :=
  Generate.Env (Some (str "key")) (fun _ _ => Ok r).

Definition enhanced_world (r : generate_response) : Enhanced.env :=
  Enhanced.Env (Some (str "key")) (fun _ => Throw JsThrown) (fun _ _ => Ok r).

Definition text_part (t : string) : part := Part (Some (str t)) None.

Definition image_part (d : string) : part :=
  Part None (Some (InlineData (Some (str "image/png")) (Some (str d)))).

Definition answer (ps : list part) : generate_response :=
  GenerateResponse (Some [Candidate (Some (Content (Some ps)))]).

Definition plain_request (title : string) : Enhanced.request :=
  Enhanced.Request (Some (str title)) None None None None.

End GenerationTerms.

Module FrameTerms.
Import JsNumber Frame.

(** The answer of the inner [catch]. *)
Definition fallback_response (v : jsstring) : response body :=
  Response 200 (FrameBody (thumbnail_url v) (Some fallback_note)).

Definition posix_join (dir name : jsstring) : jsstring := dir ++ str "/" ++ name.

(** A host where yt-dlp resolves the URL and ffmpeg writes the frame file
    and then ends with an error. *)
Definition failing_ffmpeg : env :=
  Env (str "/tmp") posix_join 1700000000000 1700000000000
    (fun cmd _ fs =>
       match cmd with
       | YtDlp _ => (Ok (str "https://media.example/v.mp4" ++ [10%N]), fs)
       | Ffmpeg _ _ out =>
           (Throw (JsError (str "Command failed: ffmpeg")),
            fs ++ [(out, [255; 216; 255]%N)])
       end)
    (fun _ => None).

End FrameTerms.

Module LookupWorlds.
Import Lookup.

(** A world where oEmbed answers with a status that is not ok. *)
Definition video_gone : env :=
  Env (fun _ => Ok (FetchResponse false (Throw JsThrown)))
      (fun _ => Ok [Caption (str "unused")]).

(** A world where the oEmbed body is no JSON. *)
Definition garbled_metadata : env :=
  Env (fun _ => Ok (FetchResponse true (Throw (JsError (str "Unexpected token <")))))
      (fun _ => Ok []).

(** A world whose captions run to more than 5000 characters: two short
    fragments and one of 6000 letters. *)
Definition long_captions : env :=
  Env (fun _ => Ok (FetchResponse true (Ok (Metadata (Some (str "T")) None))))
      (fun _ => Ok [Caption (str "never"); Caption (str "gonna");
                    Caption (repeat 97%N (N.to_nat 6000))]).

End LookupWorlds.

Module GenerationWorlds.
Import GenAI.

(** Hosts without an API key: absent, and empty. *)
Definition keyless_generate : Generate.env :=
  Generate.Env None (fun _ _ => Throw JsThrown).

Definition keyless_enhanced : Enhanced.env :=
  Enhanced.Env (Some []) (fun _ => Ok [1%N]) (fun _ _ => Throw JsThrown).

(** A provider that rejects every call with [err]. *)
Definition refusing_generate (err : exn) : Generate.env :=
  Generate.Env (Some (str "key")) (fun _ _ => Throw err).

Definition refusing_enhanced (err : exn) : Enhanced.env :=
  Enhanced.Env (Some (str "key")) (fun _ => Throw JsThrown) (fun _ _ => Throw err).

(** A host where every image URL serves [bytes] and the provider answers
    with [r]. *)
Definition serving (bytes : list N) (r : generate_response) : Enhanced.env :=
  Enhanced.Env (Some (str "key")) (fun _ => Ok bytes) (fun _ _ => Ok r).

(** A request of enhancement mode for the source image [src]. *)
Definition enhance_request (src : jsstring) : Enhanced.request :=
  Enhanced.Request (Some (str "T")) None None (Some src) (Some (str "enhance")).

(** The request of the text-only endpoint with the same fields. *)
Definition text_only (req : Enhanced.request) : Generate.request :=
  Generate.Request (Enhanced.title req) (Enhanced.transcript req)
    (Enhanced.style req).

Definition no_image_error : jsstring :=
  str "Failed to generate image - no image data in response".

Definition png_label : jsstring := str "data:image/png;base64,".

End GenerationWorlds.

Module FrameWorlds.
Import JsNumber Frame FrameTerms.

(** The disk without the file at [p]. *)
Definition remove_path (p : jsstring) (fs : filesystem) : filesystem :=
  filter (fun entry => negb (has_path p entry)) fs.

(** A host where both tools work: yt-dlp prints two URLs and ffmpeg writes
    three bytes to its output path. *)
Definition working_host : env :=
  Env (str "/tmp") posix_join 1700000000000 1700000000001
    (fun cmd _ fs =>
       match cmd with
       | YtDlp _ =>
           (Ok (str "https://media.example/v.mp4" ++ [10%N]
                ++ str "https://media.example/a.m4a" ++ [10%N]), fs)
       | Ffmpeg _ _ out => (Ok [], fs ++ [(out, [255; 216; 255]%N)])
       end)
    (fun _ => None).

(** A host where ffmpeg ends well without writing anything. *)
Definition silent_ffmpeg : env :=
  Env (str "/tmp") posix_join 1700000000000 1700000000001
    (fun cmd _ fs =>
       match cmd with
       | YtDlp _ => (Ok (str "https://media.example/v.mp4"), fs)
       | Ffmpeg _ _ _ => (Ok [], fs)
       end)
    (fun _ => None).

(** A host where no file may be deleted. *)
Definition read_only_host : env :=
  Env (str "/tmp") posix_join 1700000000000 1700000000001
    (fun _ _ fs => (Throw JsThrown, fs))
    (fun _ => Some (JsError (str "EPERM: operation not permitted"))).

(** Another request's files under the two temporary names, and a file of
    somebody else. *)
Definition leftovers : filesystem :=
  [(str "/tmp/video-1700000000000.mp4", [0%N]);
   (str "/tmp/notes.txt", [104; 105]%N);
   (str "/tmp/frame-1700000000001.jpg", [255; 216]%N)].

End FrameWorlds.

Module TimestampTerms.
Import JsNumber.

(** Nothing to strip at the head of [s]. *)
Definition head_kept (s : jsstring) : Prop :=
  match s with
  | [] => True
  | c :: _ => is_space c = false
  end.

End TimestampTerms.

Module PageTerms.

(** The error texts of the lookup endpoint. *)
Definition lookup_errors : list jsstring :=
  [str "URL is required"; str "Invalid YouTube URL";
   str "Failed to fetch video metadata"; str "Failed to fetch video data"].

(** The page after a successful lookup, showing an older image [old]. *)
Definition showing (old : GenAI.body) : Page.page :=
  Page.PageState (str "dQw4w9WgXcQ")
    (Some (Lookup.VideoBody (str "dQw4w9WgXcQ") (Some (str "T")) None
             (Lookup.thumbnailUrl (str "dQw4w9WgXcQ")) (str "never gonna")))
    (Some old) (str "vibrant and colorful") false false [].

End PageTerms.

Module ExtractionTerms.
Import Lookup LookupTerms.

(** The opening [l] is at the head of [s] and a character other than a
    delimiter follows it. *)
Definition opens_with (l s : jsstring) : bool :=
  match strip_prefix l s with
  | Some (a :: _) => none_of delimiters a
  | _ => false
  end.

(** One of the three openings is at the head of [s], followed by a
    character other than a delimiter. *)
Definition opens_at (s : jsstring) : bool :=
  existsb (fun l => opens_with l s) shapes.

(** That happens at one of the first [n] positions of [s]. *)
Fixpoint opens_before (n : nat) (s : jsstring) : bool :=
  match n with
  | O => false
  | S n' =>
      opens_at s
      || match s with
         | [] => false
         | _ :: s' => opens_before n' s'
         end
  end.

(** It happens somewhere in [s]. *)
Definition has_opening (s : jsstring) : bool :=
  opens_before (S (List.length s)) s.

End ExtractionTerms.

(** * Properties *)

(** ** Strings *)

Lemma char_eqb_refl (c : char) : char_eqb c c = true.
Proof. apply N.eqb_refl. Qed.

Lemma char_eqb_eq (a b : char) : char_eqb a b = true <-> a = b.
Proof. apply N.eqb_eq. Qed.

Lemma jsstring_eqb_eq (a b : jsstring) : jsstring_eqb a b = true <-> a = b.
Proof.
  revert b; induction a as [|x a IH]; intros [|y b]; simpl;
    try (split; [discriminate | discriminate]); try tauto.
  rewrite andb_true_iff, char_eqb_eq, IH.
  split; [intros [-> ->]; reflexivity | intros H; inversion H; auto].
Qed.

Lemma strip_prefix_app (p s : jsstring) : strip_prefix p (p ++ s) = Some s.
Proof.
  induction p as [|c p IH]; simpl; [reflexivity|].
  now rewrite char_eqb_refl.
Qed.

Lemma strip_prefix_Some (p s s' : jsstring) :
  strip_prefix p s = Some s' -> s = p ++ s'.
Proof.
  revert s; induction p as [|c p IH]; simpl; intros s H.
  - congruence.
  - destruct s as [|d s]; [discriminate|].
    destruct (char_eqb c d) eqn:E; [|discriminate].
    apply char_eqb_eq in E; subst d.
    now rewrite (IH _ H).
Qed.

Lemma split_not_nil (sep : char) (s : jsstring) : split sep s <> [].
Proof.
  induction s as [|c s IH]; simpl; [discriminate|].
  destruct (char_eqb c sep); [discriminate|].
  destruct (split sep s); discriminate.
Qed.

(** A string without the separator is the only piece. *)
Lemma split_without_sep (sep : char) (s : jsstring) :
  forallb (fun c => negb (char_eqb c sep)) s = true -> split sep s = [s].
Proof.
  induction s as [|c s IH]; simpl; [reflexivity|].
  intros H; apply andb_true_iff in H as [Hc Hs].
  apply negb_true_iff in Hc; rewrite Hc, (IH Hs); reflexivity.
Qed.

(** The encoder on the test vectors of RFC 4648. *)
Example base64_vectors :
  Base64.encode (str "foobar") = str "Zm9vYmFy"
  /\ Base64.encode (str "fooba") = str "Zm9vYmE="
  /\ Base64.encode (str "foob") = str "Zm9vYg=="
  /\ Base64.encode [] = [].
Proof. repeat split. Qed.

(** [Number] on the components a timestamp is made of. *)
Example Number_components :
  JsNumber.Number (str "02") = JsNumber.Int 2
  /\ JsNumber.Number (str " 30 ") = JsNumber.Int 30
  /\ JsNumber.Number [] = JsNumber.Int 0
  /\ JsNumber.Number (str "-5") = JsNumber.Int (-5)
  /\ JsNumber.Number (str "abc") = JsNumber.Untracked.
Proof. repeat split. Qed.

(** ** The matcher *)
Module RegexFacts.

Lemma consumed_app (taken rest : jsstring) : consumed (taken ++ rest) rest = taken.
Proof.
  unfold consumed. rewrite length_app.
  replace (List.length taken + List.length rest - List.length rest)
    with (List.length taken) by lia.
  rewrite firstn_app, firstn_all, Nat.sub_diag; simpl.
  apply app_nil_r.
Qed.

Lemma consumed_all (s : jsstring) : consumed s [] = s.
Proof.
  unfold consumed; simpl. rewrite Nat.sub_0_r. apply firstn_all.
Qed.

Lemma plus_stops (cls : char -> bool) (rest : jsstring) k :
  stops cls rest -> plus cls rest k = None.
Proof. destruct rest as [|c rest]; simpl; [reflexivity | now intros ->]. Qed.

(** Greedy repetition takes the whole run when what follows accepts. *)
Lemma plus_greedy (cls : char -> bool) (taken rest : jsstring) k (c : captures) :
  taken <> [] -> forallb cls taken = true -> stops cls rest ->
  k rest = Some c -> plus cls (taken ++ rest) k = Some c.
Proof.
  intros Hne Hall Hstop Hk.
  induction taken as [|a taken IH]; [congruence|].
  simpl in Hall; apply andb_true_iff in Hall as [Ha Hall].
  simpl; rewrite Ha.
  destruct taken as [|b taken].
  - simpl; rewrite plus_stops by exact Hstop; exact Hk.
  - rewrite IH; [reflexivity | discriminate | exact Hall].
Qed.

(** Whatever [cls+] matched is a non-empty run of the class. *)
Lemma plus_inv (cls : char -> bool) (s : jsstring) k (c : captures) :
  plus cls s k = Some c ->
  exists taken rest,
    s = taken ++ rest /\ taken <> [] /\ forallb cls taken = true /\ k rest = Some c.
Proof.
  induction s as [|a s IH]; simpl; [discriminate|].
  destruct (cls a) eqn:Ha; [|discriminate].
  destruct (plus cls s k) eqn:Hp.
  - intros H; injection H as ->.
    destruct (IH eq_refl) as (taken & rest & -> & _ & Hall & Hk).
    exists (a :: taken), rest; simpl; rewrite Ha, Hall; repeat split; auto; discriminate.
  - intros Hk. exists [a], s; simpl; rewrite Ha; repeat split; auto; discriminate.
Qed.

Lemma rep_inv (n : nat) (cls : char -> bool) (s s' : jsstring) :
  rep n cls s = Some s' ->
  exists taken, s = taken ++ s' /\ List.length taken = n /\ forallb cls taken = true.
Proof.
  revert s; induction n as [|n IH]; simpl; intros s H.
  - injection H as ->. now exists [].
  - destruct s as [|a s]; [discriminate|].
    destruct (cls a) eqn:Ha; [|discriminate].
    destruct (IH _ H) as (taken & -> & Hlen & Hall).
    exists (a :: taken); simpl; rewrite Ha, Hall, Hlen; auto.
Qed.

Lemma rep_exact (cls : char -> bool) (taken rest : jsstring) :
  forallb cls taken = true -> rep (List.length taken) cls (taken ++ rest) = Some rest.
Proof.
  induction taken as [|a taken IH]; simpl; [reflexivity|].
  intros H; apply andb_true_iff in H as [-> H]; auto.
Qed.

Lemma search_unfold (r : regex) (b : bool) (s : jsstring) :
  search r b s =
  match attempt r b s with
  | Some c => Some c
  | None => match s with [] => None | _ :: s' => search r false s' end
  end.
Proof. destruct s; reflexivity. Qed.

(** A pattern that starts with [^] matches at the start of the input or
    nowhere. *)
Lemma search_anchored (r : regex) (s : jsstring) :
  search (Seq Bol r) false s = None.
Proof. induction s as [|a s IH]; simpl; [reflexivity | exact IH]. Qed.

Lemma jsmatch_anchored (r : regex) (s : jsstring) :
  jsmatch s (Seq Bol r) = attempt (Seq Bol r) true s.
Proof.
  unfold jsmatch. destruct s as [|a s]; simpl.
  - now destruct (attempt (Seq Bol r) true []).
  - destruct (attempt (Seq Bol r) true (a :: s)); [reflexivity|].
    apply search_anchored.
Qed.

End RegexFacts.
Import RegexFacts.

(** ** Video lookup *)
Module LookupFacts.
Import Lookup LookupTerms.

Lemma id_char_not_delimiter (c : char) :
  id_char c = true -> none_of delimiters c = true.
Proof.
  unfold id_char, none_of, delimiters, in_range, char_eqb; simpl.
  intros H.
  destruct (N.eqb_spec c 38), (N.eqb_spec c 10), (N.eqb_spec c 63), (N.eqb_spec c 35);
    subst; try discriminate; reflexivity.
Qed.

Lemma id_chars_not_delimiters (v : jsstring) :
  forallb id_char v = true -> forallb (none_of delimiters) v = true.
Proof.
  induction v as [|c v IH]; simpl; [reflexivity|].
  intros H; apply andb_true_iff in H as [Hc Hv].
  now rewrite (id_char_not_delimiter c Hc), IH.
Qed.

(** [url_pattern] has no anchor: the start flag does not matter. *)
Lemma attempt_url_any_start (b b' : bool) (s : jsstring) :
  attempt url_pattern b s = attempt url_pattern b' s.
Proof. reflexivity. Qed.

Lemma search_url_any_start (b b' : bool) (s : jsstring) :
  search url_pattern b s = search url_pattern b' s.
Proof.
  rewrite (search_unfold _ b), (search_unfold _ b').
  now rewrite (attempt_url_any_start b b').
Qed.

(** The alternatives are tried from left to right at one start position. *)
Lemma attempt_url_alternatives (b : bool) (s : jsstring) :
  attempt url_pattern b s =
  match opening_attempt (str "youtube.com/watch?v=") s with
  | Some c => Some c
  | None =>
      match opening_attempt (str "youtu.be/") s with
      | Some c => Some c
      | None => opening_attempt (str "youtube.com/embed/") s
      end
  end.
Proof. reflexivity. Qed.

Lemma opening_attempt_inv (l s : jsstring) (c : captures) :
  opening_attempt l s = Some c ->
  exists v rest,
    s = l ++ v ++ rest /\ v <> [] /\ forallb (none_of delimiters) v = true
    /\ capture 1 c = Some v.
Proof.
  unfold opening_attempt.
  destruct (strip_prefix l s) as [s'|] eqn:Hl; [|discriminate].
  apply strip_prefix_Some in Hl; subst s.
  intros H; apply plus_inv in H as (v & rest & -> & Hne & Hall & Hk).
  exists v, rest. injection Hk as <-.
  rewrite consumed_app; simpl; auto.
Qed.

Lemma opening_attempt_run (l v rest : jsstring) :
  v <> [] -> forallb (none_of delimiters) v = true ->
  stops (none_of delimiters) rest ->
  opening_attempt l (l ++ v ++ rest) = Some [(0, l ++ v); (1, v)].
Proof.
  intros Hne Hall Hstop. unfold opening_attempt.
  rewrite strip_prefix_app.
  erewrite plus_greedy; eauto.
  now rewrite app_assoc, !consumed_app.
Qed.

Lemma opening_attempt_head (l s : jsstring) (x a : char) :
  x <> a -> opening_attempt (x :: l) (a :: s) = None.
Proof.
  intros Hx. unfold opening_attempt; simpl.
  destruct (char_eqb x a) eqn:E; [|reflexivity].
  now apply char_eqb_eq in E.
Qed.

(** Every opening starts with [y]: no match starts at another character. *)
Lemma attempt_url_skip (b : bool) (a : char) (s : jsstring) :
  a <> 121%N -> attempt url_pattern b (a :: s) = None.
Proof.
  intros Ha. rewrite attempt_url_alternatives.
  change (str "youtube.com/watch?v=") with (121%N :: str "outube.com/watch?v=").
  change (str "youtu.be/") with (121%N :: str "outu.be/").
  change (str "youtube.com/embed/") with (121%N :: str "outube.com/embed/").
  now rewrite !opening_attempt_head by congruence.
Qed.

Lemma attempt_url_inv (b : bool) (s : jsstring) (c : captures) :
  attempt url_pattern b s = Some c ->
  exists l v rest,
    In l shapes /\ s = l ++ v ++ rest /\ v <> []
    /\ forallb (none_of delimiters) v = true /\ capture 1 c = Some v.
Proof.
  rewrite attempt_url_alternatives. unfold shapes.
  destruct (opening_attempt (str "youtube.com/watch?v=") s) as [c1|] eqn:H1.
  - intros H; injection H as <-.
    apply opening_attempt_inv in H1 as (v & rest & ? & ? & ? & ?).
    exists (str "youtube.com/watch?v="), v, rest; simpl; auto.
  - destruct (opening_attempt (str "youtu.be/") s) as [c2|] eqn:H2.
    + intros H; injection H as <-.
      apply opening_attempt_inv in H2 as (v & rest & ? & ? & ? & ?).
      exists (str "youtu.be/"), v, rest; simpl; auto.
    + intros H3.
      apply opening_attempt_inv in H3 as (v & rest & ? & ? & ? & ?).
      exists (str "youtube.com/embed/"), v, rest; simpl; auto 6.
Qed.

(** A match of [url_pattern] anywhere in the input captures a non-empty run
    without delimiters that follows one of the openings. *)
Lemma search_url_inv (b : bool) (s : jsstring) (c : captures) :
  search url_pattern b s = Some c ->
  exists before l v rest,
    In l shapes /\ s = before ++ l ++ v ++ rest /\ v <> []
    /\ forallb (none_of delimiters) v = true /\ capture 1 c = Some v.
Proof.
  revert b. induction s as [|a s IH]; intros b.
  - rewrite search_unfold.
    destruct (attempt url_pattern b []) as [c'|] eqn:Ha; [|discriminate].
    intros H; injection H as <-.
    apply attempt_url_inv in Ha as (l & v & rest & ? & ? & ? & ? & ?).
    exists [], l, v, rest; repeat split; auto.
  - rewrite search_unfold.
    destruct (attempt url_pattern b (a :: s)) as [c'|] eqn:Ha.
    + intros H; injection H as <-.
      apply attempt_url_inv in Ha as (l & v & rest & ? & ? & ? & ? & ?).
      exists [], l, v, rest; repeat split; auto.
    + intros H. apply IH in H as (before & l & v & rest & ? & -> & ? & ? & ?).
      exists (a :: before), l, v, rest; repeat split; auto.
Qed.

(** Characters before the first [y] are passed over. *)
Lemma search_url_skip (b b' : bool) (before s : jsstring) :
  no_y before = true ->
  search url_pattern b (before ++ s) = search url_pattern b' s.
Proof.
  revert b. induction before as [|a before IH]; intros b H; simpl app.
  - apply search_url_any_start.
  - simpl in H; apply andb_true_iff in H as [Ha H].
    apply negb_true_iff in Ha.
    rewrite search_unfold, attempt_url_skip; [now apply IH|].
    intros ->; discriminate.
Qed.

(** The three URL shapes around one identifier. *)
Lemma jsmatch_url_shape (before l v rest : jsstring) :
  no_y before = true -> In l shapes ->
  v <> [] -> forallb (none_of delimiters) v = true ->
  stops (none_of delimiters) rest ->
  jsmatch (before ++ l ++ v ++ rest) url_pattern = Some [(0, l ++ v); (1, v)].
Proof.
  intros Hb Hl Hne Hall Hstop.
  unfold jsmatch; rewrite (search_url_skip true true) by exact Hb.
  rewrite search_unfold, attempt_url_alternatives.
  destruct Hl as [<-|[<-|[<-|[]]]].
  - now rewrite opening_attempt_run.
  - replace (opening_attempt (str "youtube.com/watch?v=") _) with (@None captures)
      by reflexivity.
    now rewrite opening_attempt_run.
  - replace (opening_attempt (str "youtube.com/watch?v=") _) with (@None captures)
      by reflexivity.
    replace (opening_attempt (str "youtu.be/") _) with (@None captures)
      by reflexivity.
    now rewrite opening_attempt_run.
Qed.

(** *** The bare token *)

Lemma attempt_bare_inv (s : jsstring) (c : captures) :
  attempt bare_pattern true s = Some c ->
  List.length s = 11 /\ forallb id_char s = true /\ capture 1 c = Some s.
Proof.
  unfold attempt, bare_pattern; cbn [run].
  destruct (rep 11 id_char s) as [s'|] eqn:Hrep; [|discriminate].
  apply rep_inv in Hrep as (taken & -> & Hlen & Hall).
  destruct s' as [|a s']; [|discriminate].
  intros H; injection H as <-.
  rewrite app_nil_r, consumed_all; cbn [capture Nat.eqb]; auto.
Qed.

Lemma attempt_bare_run (s : jsstring) :
  List.length s = 11 -> forallb id_char s = true ->
  attempt bare_pattern true s = Some [(0, s); (1, s)].
Proof.
  intros Hlen Hall. unfold attempt, bare_pattern; cbn [run].
  pose proof (rep_exact id_char s [] Hall) as Hrep.
  rewrite app_nil_r, Hlen in Hrep. rewrite Hrep.
  now rewrite consumed_all.
Qed.

Lemma jsmatch_bare (s : jsstring) :
  jsmatch s bare_pattern = attempt bare_pattern true s.
Proof. apply jsmatch_anchored. Qed.

(** Every opening has a slash, which no identifier has. *)
Lemma shapes_have_slash (l : jsstring) : In l shapes -> In 47%N l.
Proof.
  intros [<-|[<-|[<-|[]]]]; vm_compute; tauto.
Qed.

Lemma search_url_id_chars (b : bool) (s : jsstring) :
  forallb id_char s = true -> search url_pattern b s = None.
Proof.
  intros Hall.
  destruct (search url_pattern b s) as [c|] eqn:Hs; [exfalso|reflexivity].
  apply search_url_inv in Hs as (before & l & v & rest & Hl & -> & _).
  apply shapes_have_slash in Hl.
  rewrite forallb_forall in Hall.
  specialize (Hall 47%N). rewrite !in_app_iff in Hall.
  discriminate Hall; auto.
Qed.

(** *** [extractVideoId] by cases *)

Lemma extractVideoId_unfold (s : jsstring) :
  extractVideoId s =
  match jsmatch s url_pattern with
  | Some m => capture 1 m
  | None =>
      match jsmatch s bare_pattern with
      | Some m => capture 1 m
      | None => None
      end
  end.
Proof. reflexivity. Qed.

Lemma extractVideoId_url (s v : jsstring) :
  extractVideoId s = Some v -> jsmatch s url_pattern <> None ->
  exists before l rest,
    In l shapes /\ s = before ++ l ++ v ++ rest /\ v <> []
    /\ forallb (none_of delimiters) v = true.
Proof.
  rewrite extractVideoId_unfold.
  destruct (jsmatch s url_pattern) as [m|] eqn:Hm; [|congruence].
  intros Hv _.
  apply search_url_inv in Hm as (before & l & v' & rest & ? & ? & ? & ? & Hc).
  rewrite Hc in Hv; injection Hv as ->.
  exists before, l, rest; auto.
Qed.

Lemma extractVideoId_bare (s v : jsstring) :
  extractVideoId s = Some v -> jsmatch s url_pattern = None ->
  v = s /\ List.length v = 11 /\ forallb id_char v = true.
Proof.
  rewrite extractVideoId_unfold. intros Hv Hu; rewrite Hu in Hv.
  rewrite jsmatch_bare in Hv.
  destruct (attempt bare_pattern true s) as [m|] eqn:Hm; [|discriminate].
  apply attempt_bare_inv in Hm as (Hlen & Hall & Hc).
  rewrite Hc in Hv; injection Hv as <-. auto.
Qed.

Lemma extractVideoId_truthy (s v : jsstring) :
  extractVideoId s = Some v -> truthy v = true.
Proof.
  intros Hv.
  destruct (jsmatch s url_pattern) as [m|] eqn:Hm.
  - apply extractVideoId_url in Hv as (? & ? & ? & _ & _ & Hne & _); [|congruence].
    destruct v; [congruence | reflexivity].
  - apply extractVideoId_bare in Hv as (_ & Hlen & _); [|exact Hm].
    destruct v; [discriminate | reflexivity].
Qed.

(** *** The claims on identifier extraction *)

(** C4, counterexample: a share URL around a three-character token is
    accepted, and the identifier extracted has three characters, not 11. *)
Lemma extractVideoId_short_counterexample :
  extractVideoId (str "https://youtu.be/abc") = Some (str "abc")
  /\ List.length (str "abc") <> 11.
Proof. split; [reflexivity | discriminate]. Qed.

(** *** The claims on the lookup endpoint *)

(** C6, counterexample: both patterns fail on the empty string, and the
    answer to it is not the "Invalid YouTube URL" error. *)
Lemma empty_url_counterexample :
  jsmatch [] url_pattern = None /\ jsmatch [] bare_pattern = None
  /\ POST offline (Ok (Request (Some []))) []
     = (Ok (Response 400 (ErrorBody (str "URL is required"))), [])
  /\ str "URL is required" <> str "Invalid YouTube URL".
Proof. repeat split; discriminate. Qed.

(** C6, amended: for every non-empty input string on which both patterns
    fail, the lookup endpoint answers 400 with "Invalid YouTube URL" and
    makes no outbound call; for the empty string it answers 400 with
    "URL is required", also without any outbound call. *)
Theorem invalid_url_rejected (e : env) (u : jsstring) :
  (u <> [] -> jsmatch u url_pattern = None -> jsmatch u bare_pattern = None ->
   POST e (Ok (Request (Some u))) []
   = (Ok (Response 400 (ErrorBody (str "Invalid YouTube URL"))), []))
  /\ POST e (Ok (Request (Some []))) []
     = (Ok (Response 400 (ErrorBody (str "URL is required"))), []).
Proof.
  split; [|reflexivity].
  intros Hne Hu Hb.
  unfold POST, try_catch, bind, await, ret; simpl.
  destruct u as [|a u]; [congruence|]; simpl.
  now rewrite extractVideoId_unfold, Hu, Hb.
Qed.

Lemma invalid_url_rejected_witness :
  let u := str "not a video" in
  u <> [] /\ jsmatch u url_pattern = None /\ jsmatch u bare_pattern = None
  /\ POST offline (Ok (Request (Some u))) []
     = (Ok (Response 400 (ErrorBody (str "Invalid YouTube URL"))), []).
Proof.
  intros u.
  assert (H1 : u <> []) by discriminate.
  assert (H2 : jsmatch u url_pattern = None) by reflexivity.
  assert (H3 : jsmatch u bare_pattern = None) by reflexivity.
  exact (conj H1 (conj H2 (conj H3
           (proj1 (invalid_url_rejected offline u) H1 H2 H3)))).
Defined.

(** The answer once the identifier is extracted and the metadata fetched:
    whatever the transcript provider does only shows in [transcript]. *)
Lemma POST_with_metadata (e : env) (u v : jsstring) (md : metadata) :
  extractVideoId u = Some v ->
  fetch e (oembedUrl v) = Ok (FetchResponse true (Ok md)) ->
  POST e (Ok (Request (Some u))) []
  = (Ok (json_response
           (VideoBody v (title md) (author_name md) (thumbnailUrl v)
              (slice0 5000
                 match fetchTranscript e v with
                 | Ok transcriptData => join (str " ") (map text transcriptData)
                 | Throw _ => []
                 end))),
     [Fetch (oembedUrl v); FetchTranscript v]).
Proof.
  intros Hv Hmd.
  pose proof (extractVideoId_truthy _ Hv) as Htv.
  unfold POST, try_catch, bind, await, ret, do_fetch, do_fetchTranscript.
  cbn [url truthy_opt].
  destruct u as [|a u]; [discriminate Hv|].
  cbn [truthy negb]. rewrite Hv, Htv; cbn [negb app].
  rewrite Hmd; cbn [ok json negb].
  now destruct (fetchTranscript e v).
Qed.

(** C7: with a valid identifier and a successful oEmbed fetch, a transcript
    fetch that throws leaves the answer a 200 with the success shape and an
    empty transcript; the other fields are those of the answer with a
    transcript, whatever the provider returns. *)
Theorem transcript_failure_absorbed
  (e : env) (u v : jsstring) (md : metadata) (err : exn) :
  extractVideoId u = Some v ->
  fetch e (oembedUrl v) = Ok (FetchResponse true (Ok md)) ->
  fetchTranscript e v = Throw err ->
  POST e (Ok (Request (Some u))) []
  = (Ok (Response 200
           (VideoBody v (title md) (author_name md) (thumbnailUrl v) [])),
     [Fetch (oembedUrl v); FetchTranscript v])
  /\ forall e' transcriptData,
       fetch e' = fetch e -> fetchTranscript e' v = Ok transcriptData ->
       exists transcript,
         POST e' (Ok (Request (Some u))) []
         = (Ok (Response 200
                  (VideoBody v (title md) (author_name md) (thumbnailUrl v)
                     transcript)),
            [Fetch (oembedUrl v); FetchTranscript v]).
Proof.
  intros Hv Hmd Hthrow. split.
  - rewrite (POST_with_metadata e u Hv Hmd), Hthrow. reflexivity.
  - intros e' transcriptData Hfetch Hok.
    rewrite <- Hfetch in Hmd.
    rewrite (POST_with_metadata e' u Hv Hmd). eexists; reflexivity.
Qed.

Lemma transcript_failure_absorbed_witness :
  let u := str "https://www.youtube.com/watch?v=dQw4w9WgXcQ" in
  let v := str "dQw4w9WgXcQ" in
  let md := Metadata (Some (str "A title")) (Some (str "An author")) in
  extractVideoId u = Some v
  /\ fetch no_captions (oembedUrl v) = Ok (FetchResponse true (Ok md))
  /\ fetchTranscript no_captions v
     = Throw (JsError (str "Transcript is disabled on this video"))
  /\ POST no_captions (Ok (Request (Some u))) []
     = (Ok (Response 200
              (VideoBody v (title md) (author_name md) (thumbnailUrl v) [])),
        [Fetch (oembedUrl v); FetchTranscript v]).
Proof.
  intros u v md.
  assert (H1 : extractVideoId u = Some v) by reflexivity.
  assert (H2 : fetch no_captions (oembedUrl v) = Ok (FetchResponse true (Ok md)))
    by reflexivity.
  assert (H3 : fetchTranscript no_captions v
               = Throw (JsError (str "Transcript is disabled on this video")))
    by reflexivity.
  exact (conj H1 (conj H2 (conj H3
           (proj1 (transcript_failure_absorbed no_captions u H1 H2 H3))))).
Defined.

(** What a response with the success shape says about its transcript. *)
Lemma POST_success_inv (e : env) (rq : result request) (t t' : trace)
  (st : nat) (v : jsstring) (ti au : option jsstring) (th tr : jsstring) :
  POST e rq t = (Ok (Response st (VideoBody v ti au th tr)), t') ->
  st = 200
  /\ tr = slice0 5000
            match fetchTranscript e v with
            | Ok transcriptData => join (str " ") (map text transcriptData)
            | Throw _ => []
            end.
Proof.
  unfold POST, try_catch, bind, await, ret, do_fetch, do_fetchTranscript.
  destruct rq as [req|err]; [|discriminate].
  destruct (negb (truthy_opt (url req))); [discriminate|].
  destruct (extractVideoId _) as [videoId|]; [|discriminate].
  destruct (negb (truthy videoId)); [discriminate|].
  destruct (fetch e (oembedUrl videoId)) as [r|err]; [|discriminate].
  destruct (negb (ok r)); [discriminate|].
  destruct (json r) as [md|err]; [|discriminate].
  destruct (fetchTranscript e videoId) as [transcriptData|err] eqn:Htr;
    intros H; injection H as <- <- <- <- <- <- <-; rewrite Htr; auto.
Qed.

(** C8: in every successful lookup response the transcript is the caption
    fragments joined with single spaces and cut to the first 5000
    characters: it is a prefix of the joined text, the whole of it when
    that has at most 5000 characters and exactly its first 5000 characters
    otherwise (the empty string when the provider threw); so it is never
    longer than 5000. *)
Theorem transcript_truncated (e : env) (rq : result request) (t t' : trace)
  (st : nat) (v : jsstring) (ti au : option jsstring) (th tr : jsstring) :
  POST e rq t = (Ok (Response st (VideoBody v ti au th tr)), t') ->
  List.length tr <= 5000
  /\ (forall transcriptData,
        fetchTranscript e v = Ok transcriptData ->
        let joined := join (str " ") (map text transcriptData) in
        tr = firstn 5000 joined
        /\ (exists dropped, joined = tr ++ dropped)
        /\ (List.length joined <= 5000 -> tr = joined)
        /\ (5000 <= List.length joined -> List.length tr = 5000))
  /\ (forall err, fetchTranscript e v = Throw err -> tr = []).
Proof.
  intros H. apply POST_success_inv in H as [_ ->]. unfold slice0.
  split; [|split].
  - rewrite length_firstn. apply Nat.le_min_l.
  - intros transcriptData ->. cbv zeta.
    set (joined := join (str " ") (map text transcriptData)).
    split; [reflexivity|].
    split; [exists (skipn 5000 joined); symmetry; apply firstn_skipn|].
    split.
    + intros Hle. now apply firstn_all2.
    + intros Hge. rewrite length_firstn. now apply Nat.min_l.
  - intros err ->. apply firstn_nil.
Qed.

Lemma transcript_truncated_witness :
  let v := str "dQw4w9WgXcQ" in
  let joined := str "never gonna " ++ repeat 97%N (N.to_nat 6000) in
  let tr := str "never gonna " ++ repeat 97%N (N.to_nat 4988) in
  POST LookupWorlds.long_captions (Ok (Request (Some v))) []
  = (Ok (Response 200 (VideoBody v (Some (str "T")) None (thumbnailUrl v) tr)),
     [Fetch (oembedUrl v); FetchTranscript v])
  /\ 5000 <= List.length joined
  /\ List.length tr = 5000
  /\ tr = firstn 5000 joined
  /\ exists dropped, joined = tr ++ dropped.
Proof.
  intros v joined tr.
  assert (H : POST LookupWorlds.long_captions (Ok (Request (Some v))) []
              = (Ok (Response 200
                       (VideoBody v (Some (str "T")) None (thumbnailUrl v) tr)),
                 [Fetch (oembedUrl v); FetchTranscript v]))
    by (vm_compute; reflexivity).
  assert (Hlong : 5000 <= List.length joined)
    by (apply Nat.leb_le; vm_compute; reflexivity).
  destruct (transcript_truncated _ _ _ H) as (_ & Hjoin & _).
  destruct (Hjoin _ eq_refl) as (Hcut & Hprefix & _ & Hlen).
  exact (conj H (conj Hlong (conj (Hlen Hlong) (conj Hcut Hprefix)))).
Defined.

End LookupFacts.

(** ** Image generation *)
Module GenerationFacts.
Import GenAI GenerationTerms.

Lemma last_cons {A : Type} (x d : A) (l : list A) : last (x :: l) d = last l x.
Proof.
  revert x d; induction l as [|y l IH]; intros x d; [reflexivity|].
  change (last (x :: y :: l) d) with (last (y :: l) d).
  now rewrite (IH y d), (IH y x).
Qed.

Lemma last_app_default {A : Type} (l l' : list A) (d : A) :
  last (l ++ l') d = last l' (last l d).
Proof.
  revert d; induction l as [|x l IH]; intros d; [reflexivity|].
  simpl app. now rewrite !last_cons, IH.
Qed.

(** The loop keeps the last text and the last image payload it meets. *)
Lemma scan_loop (ps : list part) (promptUsed : jsstring) (imageData : option jsstring) :
  fold_left scan_step ps (promptUsed, imageData)
  = (last (texts ps) promptUsed, last (map Some (images ps)) imageData).
Proof.
  revert promptUsed imageData; induction ps as [|p ps IH]; intros d i.
  - reflexivity.
  - cbn [fold_left]. unfold scan_step at 2; cbn [fst snd].
    rewrite IH. unfold texts, images; cbn [flat_map].
    rewrite map_app, !last_app_default. f_equal.
    + destruct (text p) as [t|]; [destruct (truthy t)|]; reflexivity.
    + destruct (part_data p) as [x|]; [destruct (truthy x)|]; reflexivity.
Qed.

Lemma scan_last (promptUsed : jsstring) (r : generate_response) :
  scan promptUsed r
  = (last (texts (answered_parts r)) promptUsed,
     last (map Some (images (answered_parts r))) None).
Proof.
  unfold scan, answered_parts.
  destruct (first_candidate_parts r) as [ps|]; [apply scan_loop | reflexivity].
Qed.

Lemma images_truthy (ps : list part) (d : jsstring) :
  In d (images ps) -> truthy d = true.
Proof.
  unfold images. rewrite in_flat_map. intros (p & _ & Hd).
  destruct (part_data p) as [x|]; [|contradiction].
  destruct (truthy x) eqn:Hx; [|contradiction].
  destruct Hd as [<-|[]]; exact Hx.
Qed.

Lemma last_images (ps : list part) :
  images ps <> [] ->
  last (map Some (images ps)) None = Some (last (images ps) [])
  /\ truthy (last (images ps) []) = true.
Proof.
  intros Hne. destruct (exists_last Hne) as (l & d & Heq).
  rewrite Heq, map_app; cbn [map]. rewrite !last_last. split; [reflexivity|].
  apply (images_truthy ps). rewrite Heq, in_app_iff; simpl; auto.
Qed.

(** What [respond] sends for the outcome of the loop. *)
Lemma respond_scan (promptUsed : jsstring) (r : generate_response) :
  images (answered_parts r) <> [] ->
  respond (scan promptUsed r)
  = json_response
      (ImageBody (last (texts (answered_parts r)) promptUsed)
         (str "data:image/png;base64," ++ last (images (answered_parts r)) [])
         SHOPIFY_IMAGE_WIDTH SHOPIFY_IMAGE_HEIGHT).
Proof.
  intros Hne. rewrite scan_last. unfold respond; cbn [fst snd].
  destruct (last_images _ Hne) as [-> ->]. reflexivity.
Qed.

Lemma respond_dimensions (found : jsstring * option jsstring)
  (st : nat) (p i : jsstring) (w h : N) :
  respond found = Response st (ImageBody p i w h) ->
  st = 200 /\ w = 1200%N /\ h = 628%N.
Proof.
  unfold respond. destruct (snd found) as [d|]; [destruct (truthy d)|];
    try discriminate.
  intros H; injection H as <- _ _ <- <-. auto.
Qed.

(** *** Both endpoints, once the provider has answered *)

Lemma Generate_POST_answered (e : Generate.env) (req : Generate.request)
  (k : jsstring) (r : generate_response) :
  Generate.GEMINI_API_KEY e = Some k -> truthy k = true ->
  Generate.generateContent e k
    (image_params
       [TextPart (generation_prompt (Generate.title req)
                    (Generate.transcript req) (Generate.style req))]) = Ok r ->
  Generate.POST e (Ok req) []
  = (Ok (respond (scan (generation_prompt (Generate.title req)
                          (Generate.transcript req) (Generate.style req)) r)),
     [GenerateContent k
        (image_params
           [TextPart (generation_prompt (Generate.title req)
                        (Generate.transcript req) (Generate.style req))])]).
Proof.
  intros Hk Htk Hr.
  unfold Generate.POST, try_catch, bind, await, ret, Generate.do_generateContent.
  rewrite Hk; cbn [truthy_opt]; rewrite Htk; cbn [negb app].
  now rewrite Hr.
Qed.

Lemma Enhanced_POST_answered (e : Enhanced.env) (req : Enhanced.request)
  (k : jsstring) (sent : list request_part) (t : trace) (r : generate_response) :
  Enhanced.GEMINI_API_KEY e = Some k -> truthy k = true ->
  Enhanced.build_parts e req [] = (Ok sent, t) ->
  Enhanced.generateContent e k (image_params sent) = Ok r ->
  Enhanced.POST e (Ok req) []
  = (Ok (respond (scan (Enhanced.default_prompt (Enhanced.mode req)) r)),
     t ++ [GenerateContent k (image_params sent)]).
Proof.
  intros Hk Htk Hsent Hr.
  unfold Enhanced.POST, try_catch, bind, await, ret, Enhanced.do_generateContent.
  rewrite Hk; cbn [truthy_opt]; rewrite Htk; cbn [negb].
  now rewrite Hsent, Hr.
Qed.

(** C3, counterexample: with two texts and two images in the answer, the
    enhanced endpoint reports the second text and returns the second image;
    and without any text the text-only endpoint reports the prompt it
    sent, which changes with the title of the request. *)
Lemma first_part_counterexample :
  let r := answer [text_part "first"; image_part "AAAA";
                   text_part "second"; image_part "BBBB"] in
  fst (Enhanced.POST (enhanced_world r) (Ok (plain_request "T")) [])
  = Ok (json_response
          (ImageBody (str "second") (str "data:image/png;base64,BBBB")
             1200 628))
  /\ str "second" <> str "first"
  /\ str "data:image/png;base64,BBBB" <> str "data:image/png;base64,AAAA"
  /\ fst (Generate.POST (generate_world (answer [image_part "AAAA"]))
            (Ok (Generate.Request (Some (str "T")) None None)) [])
     = Ok (json_response
             (ImageBody (generation_prompt (Some (str "T")) None None)
                (str "data:image/png;base64,AAAA") 1200 628))
  /\ generation_prompt (Some (str "T")) None None
     <> generation_prompt (Some (str "U")) None None.
Proof. repeat split; discriminate. Qed.

(** C3, amended: when the answer has an image part, the text-only endpoint
    and the enhanced endpoint report as [imagePrompt] the LAST non-empty
    text of the first candidate's parts and return as [imageData] the LAST
    non-empty image payload, labelled PNG.  Without a non-empty text the
    enhanced endpoint reports its static label (by mode) and the text-only
    endpoint reports the prompt it sent. *)
Theorem last_parts_reported
  (ge : Generate.env) (greq : Generate.request)
  (ee : Enhanced.env) (ereq : Enhanced.request)
  (k : jsstring) (r : generate_response)
  (sent : list request_part) (t : trace) :
  let prompt := generation_prompt (Generate.title greq)
                  (Generate.transcript greq) (Generate.style greq) in
  let ps := answered_parts r in
  images ps <> [] -> truthy k = true ->
  (Generate.GEMINI_API_KEY ge = Some k ->
   Generate.generateContent ge k (image_params [TextPart prompt]) = Ok r ->
   Generate.POST ge (Ok greq) []
   = (Ok (json_response
            (ImageBody (last (texts ps) prompt)
               (str "data:image/png;base64," ++ last (images ps) [])
               1200 628)),
      [GenerateContent k (image_params [TextPart prompt])]))
  /\ (Enhanced.GEMINI_API_KEY ee = Some k ->
      Enhanced.build_parts ee ereq [] = (Ok sent, t) ->
      Enhanced.generateContent ee k (image_params sent) = Ok r ->
      Enhanced.POST ee (Ok ereq) []
      = (Ok (json_response
               (ImageBody
                  (last (texts ps) (Enhanced.default_prompt (Enhanced.mode ereq)))
                  (str "data:image/png;base64," ++ last (images ps) [])
                  1200 628)),
         t ++ [GenerateContent k (image_params sent)])).
Proof.
  intros prompt ps Himg Htk. split.
  - intros Hk Hr.
    rewrite (Generate_POST_answered ge greq Hk Htk Hr).
    now rewrite respond_scan.
  - intros Hk Hsent Hr.
    rewrite (Enhanced_POST_answered ee ereq Hk Htk Hsent Hr).
    now rewrite respond_scan.
Qed.

Lemma last_parts_reported_witness :
  let r := answer [text_part "first"; image_part "AAAA";
                   text_part "second"; image_part "BBBB"] in
  let greq := Generate.Request (Some (str "T")) None None in
  let prompt := generation_prompt (Some (str "T")) None None in
  images (answered_parts r) <> [] /\ truthy (str "key") = true
  /\ Generate.POST (generate_world r) (Ok greq) []
     = (Ok (json_response
              (ImageBody (str "second") (str "data:image/png;base64,BBBB")
                 1200 628)),
        [GenerateContent (str "key") (image_params [TextPart prompt])])
  /\ Enhanced.POST (enhanced_world r) (Ok (plain_request "T")) []
     = (Ok (json_response
              (ImageBody (str "second") (str "data:image/png;base64,BBBB")
                 1200 628)),
        [GenerateContent (str "key") (image_params [TextPart prompt])]).
Proof.
  intros r greq prompt.
  assert (H1 : images (answered_parts r) <> []) by discriminate.
  assert (H2 : truthy (str "key") = true) by reflexivity.
  destruct (@last_parts_reported (generate_world r) greq
              (enhanced_world r) (plain_request "T")
              (str "key") r [TextPart prompt] [] H1 H2) as [Hg He].
  exact (conj H1 (conj H2 (conj (Hg eq_refl eq_refl)
                                (He eq_refl eq_refl eq_refl)))).
Defined.

(** C9: a response of either generation endpoint that has the success
    shape has status 200 and reports width 1200 and height 628, whatever
    the image data. *)
Theorem dimensions_fixed
  (ge : Generate.env) (grq : result Generate.request)
  (ee : Enhanced.env) (erq : result Enhanced.request)
  (t t' : trace) (st : nat) (p i : jsstring) (w h : N) :
  (Generate.POST ge grq t = (Ok (Response st (ImageBody p i w h)), t') ->
   st = 200 /\ w = 1200%N /\ h = 628%N)
  /\ (Enhanced.POST ee erq t = (Ok (Response st (ImageBody p i w h)), t') ->
      st = 200 /\ w = 1200%N /\ h = 628%N).
Proof.
  split.
  - unfold Generate.POST, try_catch, bind, await, ret, Generate.do_generateContent.
    destruct grq as [req|err]; [|discriminate].
    destruct (negb (truthy_opt (Generate.GEMINI_API_KEY ge))); [discriminate|].
    destruct (Generate.generateContent ge _ _) as [r|err]; [|discriminate].
    intros H; injection H as H _. now apply respond_dimensions in H.
  - unfold Enhanced.POST, try_catch, bind, await, ret, Enhanced.do_generateContent.
    destruct erq as [req|err]; [|discriminate].
    destruct (negb (truthy_opt (Enhanced.GEMINI_API_KEY ee))); [discriminate|].
    destruct (Enhanced.build_parts ee req t) as [[sent|err] t1]; [|discriminate].
    destruct (Enhanced.generateContent ee _ _) as [r|err]; [|discriminate].
    intros H; injection H as H _. now apply respond_dimensions in H.
Qed.

Lemma dimensions_fixed_witness :
  let r := answer [image_part "AAAA"] in
  let prompt := generation_prompt (Some (str "T")) None None in
  let sent := [GenerateContent (str "key") (image_params [TextPart prompt])] in
  Generate.POST (generate_world r)
    (Ok (Generate.Request (Some (str "T")) None None)) []
  = (Ok (Response 200 (ImageBody prompt (str "data:image/png;base64,AAAA")
                         SHOPIFY_IMAGE_WIDTH SHOPIFY_IMAGE_HEIGHT)), sent)
  /\ Enhanced.POST (enhanced_world r) (Ok (plain_request "T")) []
     = (Ok (Response 200 (ImageBody (str "AI generated")
                            (str "data:image/png;base64,AAAA")
                            SHOPIFY_IMAGE_WIDTH SHOPIFY_IMAGE_HEIGHT)), sent)
  /\ SHOPIFY_IMAGE_WIDTH = 1200%N /\ SHOPIFY_IMAGE_HEIGHT = 628%N.
Proof.
  intros r prompt sent.
  assert (Hg : Generate.POST (generate_world r)
                 (Ok (Generate.Request (Some (str "T")) None None)) []
               = (Ok (Response 200
                        (ImageBody prompt (str "data:image/png;base64,AAAA")
                           SHOPIFY_IMAGE_WIDTH SHOPIFY_IMAGE_HEIGHT)), sent))
    by reflexivity.
  assert (He : Enhanced.POST (enhanced_world r) (Ok (plain_request "T")) []
               = (Ok (Response 200
                        (ImageBody (str "AI generated")
                           (str "data:image/png;base64,AAAA")
                           SHOPIFY_IMAGE_WIDTH SHOPIFY_IMAGE_HEIGHT)), sent))
    by reflexivity.
  destruct (@dimensions_fixed (generate_world r)
              (Ok (Generate.Request (Some (str "T")) None None))
              (enhanced_world r) (Ok (plain_request "T"))
              [] sent 200 prompt (str "data:image/png;base64,AAAA")
              SHOPIFY_IMAGE_WIDTH SHOPIFY_IMAGE_HEIGHT) as [Dg De].
  pose proof (Dg Hg) as (_ & Hw & Hh).
  exact (conj Hg (conj He (conj Hw Hh))).
Defined.

(** *** Enhancement mode *)

Import Enhanced.

(** The pattern on a well-formed data URI. *)
Example data_uri_pattern_accepts :
  jsmatch (str "data:image/png;base64,AAAA") data_uri_pattern
  = Some [(0, str "data:image/png;base64,AAAA"); (2, str "AAAA");
          (1, str "image/png")].
Proof. reflexivity. Qed.

(** The pattern accepts exactly the strings of the data URI shape. *)
Lemma data_uri_pattern_shape (s : jsstring) :
  jsmatch s data_uri_pattern <> None <-> data_uri_shaped s.
Proof.
  unfold data_uri_pattern. rewrite jsmatch_anchored.
  unfold attempt; cbn [run andb]. split.
  - destruct (strip_prefix (str "data:") s) as [s1|] eqn:H1; [|congruence].
    apply strip_prefix_Some in H1; subst s.
    destruct (plus _ s1 _) as [c|] eqn:Hp; [intros _|congruence].
    apply plus_inv in Hp as (mime & s2 & -> & Hm & Hmall & Hk).
    destruct (strip_prefix (str ";base64,") s2) as [s3|] eqn:H2; [|discriminate].
    apply strip_prefix_Some in H2; subst s2.
    apply plus_inv in Hk as (payload & s4 & -> & Hp & Hpall & Hk).
    destruct s4 as [|a s4]; [|discriminate].
    exists mime, payload. rewrite app_nil_r. auto 6.
  - intros (mime & payload & -> & Hm & Hmall & Hp & Hpall).
    rewrite strip_prefix_app.
    erewrite plus_greedy; [discriminate | exact Hm | exact Hmall | reflexivity |].
    cbn beta. rewrite strip_prefix_app.
    rewrite <- (app_nil_r payload) at 1.
    erewrite plus_greedy; [reflexivity | exact Hp | exact Hpall | exact I |].
    reflexivity.
Qed.

Lemma startsWith_truthy (p s : jsstring) :
  p <> [] -> startsWith p s = true -> truthy s = true.
Proof.
  unfold startsWith. destruct p as [|c p]; [congruence|].
  destruct s as [|d s]; [discriminate | reflexivity].
Qed.

(** In enhancement mode a [data:] string that the pattern rejects throws
    before anything is fetched or sent. *)
Lemma build_parts_malformed (e : env) (req : request) (src : jsstring) (t : trace) :
  mode req = Some (str "enhance") -> sourceImage req = Some src ->
  startsWith (str "data:") src = true ->
  jsmatch src data_uri_pattern = None ->
  build_parts e req t = (Throw (JsError (str "Invalid base64 image format")), t).
Proof.
  intros Hmode Hsrc Hstart Hno.
  unfold build_parts, source_image_part, bind, throw.
  rewrite Hmode, Hsrc; cbn [truthy_opt].
  rewrite (startsWith_truthy (p := str "data:") src) by (discriminate || exact Hstart).
  change (is_enhance (Some (str "enhance"))) with true; cbn [andb].
  now rewrite Hstart, Hno.
Qed.

(** C1, counterexample: a data URI without payload in enhancement mode is
    answered with status 500, not 400. *)
Lemma malformed_data_uri_counterexample :
  let src := str "data:image/png;base64," in
  let req := Request (Some (str "T")) None None (Some src) (Some (str "enhance")) in
  startsWith (str "data:") src = true
  /\ jsmatch src data_uri_pattern = None
  /\ POST (enhanced_world (answer [image_part "AAAA"])) (Ok req) []
     = (Ok (Response 500 (ErrorBody (str "Invalid base64 image format"))), [])
  /\ 500 <> 400.
Proof. repeat split; discriminate. Qed.

(** C1, amended: for every request to the enhanced endpoint with mode
    "enhance" and a source image that starts with "data:" but does not
    match the data URI pattern, the endpoint fails with HTTP status 500
    (the message is "Invalid base64 image format" when the API key is
    configured and "GEMINI_API_KEY not configured" otherwise), and it makes
    no outbound call: neither a fetch nor a call to the provider. *)
Theorem malformed_data_uri_fails (e : env) (req : request) (src : jsstring) :
  mode req = Some (str "enhance") -> sourceImage req = Some src ->
  startsWith (str "data:") src = true ->
  jsmatch src data_uri_pattern = None ->
  POST e (Ok req) []
  = (Ok (Response 500
           (ErrorBody (if truthy_opt (GEMINI_API_KEY e)
                       then str "Invalid base64 image format"
                       else str "GEMINI_API_KEY not configured"))),
     []).
Proof.
  intros Hmode Hsrc Hstart Hno.
  unfold POST, try_catch, bind, await, ret.
  destruct (truthy_opt (GEMINI_API_KEY e)); cbn [negb]; [|reflexivity].
  now rewrite (build_parts_malformed e req [] Hmode Hsrc Hstart Hno).
Qed.

Lemma malformed_data_uri_fails_witness :
  let src := str "data:image/png;charset=utf-8" in
  let req := Request (Some (str "T")) None None (Some src) (Some (str "enhance")) in
  let e := enhanced_world (answer [image_part "AAAA"]) in
  startsWith (str "data:") src = true
  /\ jsmatch src data_uri_pattern = None
  /\ POST e (Ok req) []
     = (Ok (Response 500 (ErrorBody (str "Invalid base64 image format"))), []).
Proof.
  intros src req e.
  assert (H1 : startsWith (str "data:") src = true) by reflexivity.
  assert (H2 : jsmatch src data_uri_pattern = None) by reflexivity.
  exact (conj H1 (conj H2
           (malformed_data_uri_fails e req eq_refl eq_refl H1 H2))).
Defined.

(** C10: with mode "enhance" and a missing or empty source image the
    endpoint builds the parts of generation from scratch, without throwing
    and without any call; once the provider answers with an image the
    response has the normal success shape. *)
Theorem enhance_without_source_generates
  (e : env) (req : request) (k : jsstring) (r : generate_response) (t : trace) :
  let prompt := generation_prompt (title req) (transcript req) (style req) in
  mode req = Some (str "enhance") -> truthy_opt (sourceImage req) = false ->
  build_parts e req t = (Ok [TextPart prompt], t)
  /\ (GEMINI_API_KEY e = Some k -> truthy k = true ->
      generateContent e k (image_params [TextPart prompt]) = Ok r ->
      images (answered_parts r) <> [] ->
      POST e (Ok req) []
      = (Ok (json_response
               (ImageBody
                  (last (texts (answered_parts r)) (str "Enhanced from source image"))
                  (str "data:image/png;base64," ++ last (images (answered_parts r)) [])
                  SHOPIFY_IMAGE_WIDTH SHOPIFY_IMAGE_HEIGHT)),
         [GenerateContent k (image_params [TextPart prompt])])).
Proof.
  intros prompt Hmode Hsrc.
  assert (Hparts : forall t0, build_parts e req t0 = (Ok [TextPart prompt], t0)).
  { intros t0. unfold build_parts. rewrite Hsrc, andb_false_r. reflexivity. }
  split; [apply Hparts|].
  intros Hk Htk Hr Himg.
  rewrite (Enhanced_POST_answered e req Hk Htk (Hparts []) Hr).
  rewrite respond_scan by exact Himg.
  unfold default_prompt. rewrite Hmode. reflexivity.
Qed.

Lemma enhance_without_source_generates_witness :
  let r := answer [image_part "AAAA"] in
  let e := enhanced_world r in
  let req := Request (Some (str "T")) None None (Some []) (Some (str "enhance")) in
  let prompt := generation_prompt (Some (str "T")) None None in
  truthy_opt (sourceImage req) = false
  /\ images (answered_parts r) <> []
  /\ build_parts e req [] = (Ok [TextPart prompt], [])
  /\ POST e (Ok req) []
     = (Ok (json_response
              (ImageBody (str "Enhanced from source image")
                 (str "data:image/png;base64,AAAA")
                 SHOPIFY_IMAGE_WIDTH SHOPIFY_IMAGE_HEIGHT)),
        [GenerateContent (str "key") (image_params [TextPart prompt])]).
Proof.
  intros r e req prompt.
  assert (H1 : truthy_opt (sourceImage req) = false) by reflexivity.
  assert (H2 : images (answered_parts r) <> []) by discriminate.
  destruct (@enhance_without_source_generates e req (str "key") r []
              eq_refl H1) as [Hb Hp].
  exact (conj H1 (conj H2 (conj Hb (Hp eq_refl eq_refl eq_refl H2)))).
Defined.

End GenerationFacts.

(** ** Frame extraction *)
Module FrameFacts.
Import JsNumber Frame FrameTerms.

(** C5: "1:30" is 90 seconds and "1:02:03" is 3723; a string that does not
    split on ":" into two or three components, such as "abc" or the empty
    string, is 0 seconds; an omitted timestamp is read as "0:00", which is
    0 seconds. *)
Theorem parseTimestamp_cases (s : jsstring) :
  parseTimestamp (str "1:30") = Int 90
  /\ parseTimestamp (str "1:02:03") = Int 3723
  /\ (List.length (split 58%N s) <> 2 -> List.length (split 58%N s) <> 3 ->
      parseTimestamp s = Int 0)
  /\ parseTimestamp (str "abc") = Int 0
  /\ parseTimestamp [] = Int 0
  /\ requested_seconds None = parseTimestamp (str "0:00")
  /\ requested_seconds (Some []) = parseTimestamp (str "0:00")
  /\ parseTimestamp (str "0:00") = Int 0.
Proof.
  repeat split; try reflexivity.
  unfold parseTimestamp.
  destruct (split 58%N s) as [|a [|b [|c [|d l]]]]; cbn [map List.length];
    intros H2 H3; try reflexivity; congruence.
Qed.

(** Without a colon there is one component only. *)
Lemma parseTimestamp_no_colon (s : jsstring) :
  forallb (fun c => negb (char_eqb c 58%N)) s = true -> parseTimestamp s = Int 0.
Proof.
  intros H. unfold parseTimestamp. now rewrite (split_without_sep 58%N s H).
Qed.

Lemma parseTimestamp_cases_witness :
  let s := str "1:2:3:4" in
  List.length (split 58%N s) <> 2 /\ List.length (split 58%N s) <> 3
  /\ parseTimestamp s = Int 0.
Proof.
  intros s.
  assert (H2 : List.length (split 58%N s) <> 2) by discriminate.
  assert (H3 : List.length (split 58%N s) <> 3) by discriminate.
  destruct (parseTimestamp_cases s) as (_ & _ & H & _).
  exact (conj H2 (conj H3 (H H2 H3))).
Defined.

(** *** The fallback path *)

(** When a tool fails the answer is the 200 fallback, and the handler
    returns from the inner [catch]: the files are left as the failed tool
    left them, no clean-up runs. *)
Lemma fallback_skips_cleanup (e : env) (req : request) (v : jsstring)
  (fs : filesystem) :
  videoId req = Some v -> truthy v = true ->
  (forall err fs1,
     exec e (YtDlp (watch_url v)) 30000 fs = (Throw err, fs1) ->
     POST e (Ok req) (State [] fs)
     = (Ok (fallback_response v), State [Exec (YtDlp (watch_url v)) 30000] fs1))
  /\ (forall out err fs1 fs2,
        exec e (YtDlp (watch_url v)) 30000 fs = (Ok out, fs1) ->
        let cmd := Ffmpeg (requested_seconds (timestamp req))
                     (hd [] (split 10%N (trim out))) (framePath e) in
        exec e cmd 60000 fs1 = (Throw err, fs2) ->
        POST e (Ok req) (State [] fs)
        = (Ok (fallback_response v),
           State [Exec (YtDlp (watch_url v)) 30000; Exec cmd 60000] fs2)).
Proof.
  intros Hv Htv. split.
  - intros err fs1 Hy.
    unfold POST, run_tools, try_catch, bind, await, ret, execAsync.
    rewrite Hv; cbn [truthy_opt]; rewrite Htv; cbn [negb files calls].
    now rewrite Hy.
  - intros out err fs1 fs2 Hy cmd Hf.
    unfold POST, run_tools, try_catch, bind, await, ret, execAsync.
    rewrite Hv; cbn [truthy_opt]; rewrite Htv; cbn [negb files calls].
    rewrite Hy; cbn [files calls].
    fold cmd. now rewrite Hf.
Qed.

(** C2, at the failing input: the request for frame 1:30 of a video on a
    host where ffmpeg fails after writing the frame file is answered with
    the 200 fallback, and the frame file is still on disk when the response
    is sent. *)
Theorem fallback_leaves_frame_file :
  let req := Request (Some (str "dQw4w9WgXcQ")) (Some (str "1:30")) in
  let frame := str "/tmp/frame-1700000000000.jpg" in
  POST failing_ffmpeg (Ok req) (State [] [])
  = (Ok (fallback_response (str "dQw4w9WgXcQ")),
     State [Exec (YtDlp (watch_url (str "dQw4w9WgXcQ"))) 30000;
            Exec (Ffmpeg (Int 90) (str "https://media.example/v.mp4") frame) 60000]
           [(frame, [255; 216; 255]%N)])
  /\ framePath failing_ffmpeg = frame
  /\ existsb (has_path frame)
       (files (snd (POST failing_ffmpeg (Ok req) (State [] [])))) = true.
Proof. repeat split. Qed.

End FrameFacts.

(** ** Video lookup: the other paths of the handler *)
Module LookupPaths.
Import Lookup LookupTerms LookupWorlds LookupFacts.

(** The handler never rejects: whatever the request and the outside world
    do, it answers; the status is 200 exactly with the success shape, and
    400 or 500 with an error body. *)
Theorem lookup_always_answers (e : env) (rq : result request) (t : trace) :
  exists resp t',
    POST e rq t = (Ok resp, t')
    /\ match resp with
       | Response st (VideoBody _ _ _ _ _) => st = 200
       | Response st (ErrorBody _) => st = 400 \/ st = 500
       end.
Proof.
  unfold POST, try_catch, bind, await, ret, do_fetch, do_fetchTranscript.
  destruct rq as [req|err]; [|eexists _, _; split; [reflexivity|simpl; auto]].
  destruct (negb (truthy_opt (url req)));
    [eexists _, _; split; [reflexivity|simpl; auto]|].
  destruct (extractVideoId _) as [v|];
    [|eexists _, _; split; [reflexivity|simpl; auto]].
  destruct (negb (truthy v)); [eexists _, _; split; [reflexivity|simpl; auto]|].
  destruct (fetch e (oembedUrl v)) as [r|err];
    [|eexists _, _; split; [reflexivity|simpl; auto]].
  destruct (negb (ok r)); [eexists _, _; split; [reflexivity|simpl; auto]|].
  destruct (json r) as [md|err];
    [|eexists _, _; split; [reflexivity|simpl; auto]].
  destruct (fetchTranscript e v) as [cs|err];
    eexists _, _; (split; [reflexivity|simpl; auto]).
Qed.

(** The outbound calls of one lookup, in order: none, or the oEmbed fetch
    for the extracted identifier, or that fetch followed by the transcript
    request for the same identifier.  The transcript is requested only
    after oEmbed answered ok with a document that parsed. *)
Theorem lookup_calls_in_order (e : env) (u : jsstring)
  (resp : result (response body)) (t' : trace) :
  POST e (Ok (Request (Some u))) [] = (resp, t') ->
  t' = []
  \/ exists v,
       extractVideoId u = Some v
       /\ (t' = [Fetch (oembedUrl v)]
           \/ (t' = [Fetch (oembedUrl v); FetchTranscript v]
               /\ exists md, fetch e (oembedUrl v) = Ok (FetchResponse true (Ok md)))).
Proof.
  unfold POST, try_catch, bind, await, ret, do_fetch, do_fetchTranscript.
  cbn [url]. destruct (negb (truthy_opt (Some u))).
  { intros H; injection H as _ <-; auto. }
  destruct (extractVideoId u) as [v|]; [|intros H; injection H as _ <-; auto].
  destruct (negb (truthy v)); [intros H; injection H as _ <-; auto|].
  destruct (fetch e (oembedUrl v)) as [[[] j]|err] eqn:Hf; cbn [ok json negb].
  - destruct j as [md|err].
    + destruct (fetchTranscript e v); intros H; injection H as _ <-;
        right; exists v; split; auto; right; split; eauto.
    + intros H; injection H as _ <-. right; exists v; auto.
  - intros H; injection H as _ <-. right; exists v; auto.
  - intros H; injection H as _ <-. right; exists v; auto.
Qed.

Lemma lookup_calls_in_order_witness :
  let u := str "https://youtu.be/dQw4w9WgXcQ" in
  let v := str "dQw4w9WgXcQ" in
  POST no_captions (Ok (Request (Some u))) []
  = (Ok (Response 200
           (VideoBody v (Some (str "A title")) (Some (str "An author"))
              (thumbnailUrl v) [])),
     [Fetch (oembedUrl v); FetchTranscript v])
  /\ ([Fetch (oembedUrl v); FetchTranscript v] = []
      \/ exists v0,
           extractVideoId u = Some v0
           /\ ([Fetch (oembedUrl v); FetchTranscript v] = [Fetch (oembedUrl v0)]
               \/ ([Fetch (oembedUrl v); FetchTranscript v]
                   = [Fetch (oembedUrl v0); FetchTranscript v0]
                   /\ exists md,
                        fetch no_captions (oembedUrl v0)
                        = Ok (FetchResponse true (Ok md))))).
Proof.
  intros u v.
  assert (H : POST no_captions (Ok (Request (Some u))) []
              = (Ok (Response 200
                       (VideoBody v (Some (str "A title")) (Some (str "An author"))
                          (thumbnailUrl v) [])),
                 [Fetch (oembedUrl v); FetchTranscript v])) by reflexivity.
  exact (conj H (lookup_calls_in_order no_captions u H)).
Defined.

(** When oEmbed answers with a status that is not ok, the lookup answers
    400 "Failed to fetch video metadata"; the body of that answer is not
    read and the transcript is never requested. *)
Theorem lookup_metadata_refused (e : env) (u v : jsstring)
  (j : result metadata) :
  extractVideoId u = Some v ->
  fetch e (oembedUrl v) = Ok (FetchResponse false j) ->
  POST e (Ok (Request (Some u))) []
  = (Ok (Response 400 (ErrorBody (str "Failed to fetch video metadata"))),
     [Fetch (oembedUrl v)]).
Proof.
  intros Hv Hf.
  pose proof (extractVideoId_truthy _ Hv) as Htv.
  unfold POST, try_catch, bind, await, ret, do_fetch.
  cbn [url truthy_opt].
  destruct u as [|a u]; [discriminate Hv|].
  cbn [truthy negb]. rewrite Hv, Htv; cbn [negb app].
  now rewrite Hf.
Qed.

Lemma lookup_metadata_refused_witness :
  let u := str "dQw4w9WgXcQ" in
  extractVideoId u = Some u
  /\ fetch video_gone (oembedUrl u) = Ok (FetchResponse false (Throw JsThrown))
  /\ POST video_gone (Ok (Request (Some u))) []
     = (Ok (Response 400 (ErrorBody (str "Failed to fetch video metadata"))),
        [Fetch (oembedUrl u)]).
Proof.
  intros u.
  assert (H1 : extractVideoId u = Some u) by reflexivity.
  assert (H2 : fetch video_gone (oembedUrl u)
               = Ok (FetchResponse false (Throw JsThrown))) by reflexivity.
  exact (conj H1 (conj H2 (lookup_metadata_refused video_gone u H1 H2))).
Defined.

(** Whatever is thrown on the way (the request body does not parse, the
    oEmbed fetch rejects, the oEmbed body does not parse) is answered with
    500 and the fixed text "Failed to fetch video data": the thrown message
    is never sent to the client, and the transcript is not requested. *)
Theorem lookup_throw_is_500 (e : env) (u v : jsstring) (err : exn) :
  POST e (Throw err) []
  = (Ok (Response 500 (ErrorBody (str "Failed to fetch video data"))), [])
  /\ (extractVideoId u = Some v ->
      fetch e (oembedUrl v) = Throw err
      \/ fetch e (oembedUrl v) = Ok (FetchResponse true (Throw err)) ->
      POST e (Ok (Request (Some u))) []
      = (Ok (Response 500 (ErrorBody (str "Failed to fetch video data"))),
         [Fetch (oembedUrl v)])).
Proof.
  split; [reflexivity|].
  intros Hv Hf.
  pose proof (extractVideoId_truthy _ Hv) as Htv.
  unfold POST, try_catch, bind, await, ret, do_fetch.
  cbn [url truthy_opt].
  destruct u as [|a u]; [discriminate Hv|].
  cbn [truthy negb]. rewrite Hv, Htv; cbn [negb app].
  destruct Hf as [-> | ->]; reflexivity.
Qed.

Lemma lookup_throw_is_500_witness :
  let u := str "dQw4w9WgXcQ" in
  let err := JsError (str "Unexpected token <") in
  extractVideoId u = Some u
  /\ fetch garbled_metadata (oembedUrl u) = Ok (FetchResponse true (Throw err))
  /\ POST garbled_metadata (Ok (Request (Some u))) []
     = (Ok (Response 500 (ErrorBody (str "Failed to fetch video data"))),
        [Fetch (oembedUrl u)]).
Proof.
  intros u err.
  assert (H1 : extractVideoId u = Some u) by reflexivity.
  assert (H2 : fetch garbled_metadata (oembedUrl u)
               = Ok (FetchResponse true (Throw err))) by reflexivity.
  exact (conj H1 (conj H2
           (proj2 (@lookup_throw_is_500 garbled_metadata u u err) H1
              (or_intror H2)))).
Defined.

(** Every response with the success shape describes the video of the
    request: [videoId] is the identifier extracted from the URL, the
    thumbnail URL is built from it, title and author are those of the
    oEmbed document, and exactly the two calls were made. *)
Theorem lookup_success_describes_video (e : env) (req : request) (t' : trace)
  (st : nat) (v : jsstring) (ti au : option jsstring) (th tr : jsstring) :
  POST e (Ok req) [] = (Ok (Response st (VideoBody v ti au th tr)), t') ->
  exists u md,
    url req = Some u /\ extractVideoId u = Some v
    /\ fetch e (oembedUrl v) = Ok (FetchResponse true (Ok md))
    /\ ti = title md /\ au = author_name md
    /\ th = thumbnailUrl v
    /\ t' = [Fetch (oembedUrl v); FetchTranscript v].
Proof.
  unfold POST, try_catch, bind, await, ret, do_fetch, do_fetchTranscript.
  destruct (url req) as [u|] eqn:Hu; cbn [truthy_opt negb]; [|discriminate].
  destruct (negb (truthy u)); [discriminate|].
  destruct (extractVideoId u) as [v0|] eqn:Hv; [|discriminate].
  destruct (negb (truthy v0)); [discriminate|].
  destruct (fetch e (oembedUrl v0)) as [[[] [md|err]]|err] eqn:Hf;
    cbn [ok json negb]; try discriminate.
  destruct (fetchTranscript e v0); intros H; injection H as <- <- <- <- <- <- <-;
    exists u, md; repeat split; auto.
Qed.

Lemma lookup_success_describes_video_witness :
  let v := str "dQw4w9WgXcQ" in
  let req := Request (Some (str "https://www.youtube.com/embed/dQw4w9WgXcQ?rel=0")) in
  POST three_captions (Ok req) []
  = (Ok (Response 200
           (VideoBody v (Some (str "T")) None (thumbnailUrl v)
              (str "never gonna give"))),
     [Fetch (oembedUrl v); FetchTranscript v])
  /\ exists u md,
       url req = Some u /\ extractVideoId u = Some v
       /\ fetch three_captions (oembedUrl v) = Ok (FetchResponse true (Ok md))
       /\ Some (str "T") = title md /\ None = author_name md
       /\ thumbnailUrl v = thumbnailUrl v
       /\ [Fetch (oembedUrl v); FetchTranscript v]
          = [Fetch (oembedUrl v); FetchTranscript v].
Proof.
  intros v req.
  assert (H : POST three_captions (Ok req) []
              = (Ok (Response 200
                       (VideoBody v (Some (str "T")) None (thumbnailUrl v)
                          (str "never gonna give"))),
                 [Fetch (oembedUrl v); FetchTranscript v])) by reflexivity.
  exact (conj H (lookup_success_describes_video three_captions req H)).
Defined.

End LookupPaths.

(** ** Identifier extraction: what is accepted, and what is kept *)
Module ExtractionFacts.
Import Lookup LookupTerms LookupFacts.

Lemma plus_total (cls : char -> bool) (a : char) (s : jsstring)
  (k : jsstring -> option captures) :
  cls a = true -> (forall x, k x <> None) -> plus cls (a :: s) k <> None.
Proof.
  intros Ha Hk. simpl. rewrite Ha.
  destruct (plus cls s k); [discriminate | apply Hk].
Qed.

Lemma opening_attempt_some (l : jsstring) (a : char) (rest : jsstring) :
  none_of delimiters a = true -> opening_attempt l (l ++ a :: rest) <> None.
Proof.
  intros Ha. unfold opening_attempt. rewrite strip_prefix_app.
  apply plus_total; [exact Ha | discriminate].
Qed.

Lemma attempt_url_some (b : bool) (l : jsstring) (a : char) (rest : jsstring) :
  In l shapes -> none_of delimiters a = true ->
  attempt url_pattern b (l ++ a :: rest) <> None.
Proof.
  intros Hl Ha. rewrite attempt_url_alternatives.
  destruct (opening_attempt (str "youtube.com/watch?v=") _) eqn:H1; [discriminate|].
  destruct (opening_attempt (str "youtu.be/") _) eqn:H2; [discriminate|].
  destruct Hl as [<-|[<-|[<-|[]]]].
  - now apply opening_attempt_some in H1.
  - now apply opening_attempt_some in H2.
  - now apply opening_attempt_some.
Qed.

(** A match that exists at some position is found, there or earlier. *)
Lemma search_url_finds (b : bool) (before s : jsstring) :
  attempt url_pattern false s <> None ->
  search url_pattern b (before ++ s) <> None.
Proof.
  intros Hs. revert b; induction before as [|x before IH]; intros b.
  - simpl app. rewrite search_unfold, (attempt_url_any_start b false).
    destruct (attempt url_pattern false s); [discriminate | congruence].
  - simpl app. rewrite search_unfold.
    destruct (attempt url_pattern b (x :: before ++ s)); [discriminate | apply IH].
Qed.

Lemma url_match_captures (b : bool) (s : jsstring) (m : captures) :
  search url_pattern b s = Some m -> capture 1 m <> None.
Proof.
  intros H. apply search_url_inv in H as (? & ? & v & ? & _ & _ & _ & _ & Hc).
  congruence.
Qed.

(** The strings that [extractVideoId] accepts are exactly those in which
    one of the three openings is followed by a character other than a
    delimiter, and the 11-character tokens over [[a-zA-Z0-9_-]]. *)
Theorem extractVideoId_accepts_iff (s : jsstring) :
  extractVideoId s <> None
  <-> (exists before l a rest,
         In l shapes /\ s = before ++ l ++ a :: rest
         /\ none_of delimiters a = true)
      \/ (List.length s = 11 /\ forallb id_char s = true).
Proof.
  split.
  - destruct (extractVideoId s) as [v|] eqn:Hv; [intros _|congruence].
    destruct (jsmatch s url_pattern) as [m|] eqn:Hm.
    + apply extractVideoId_url in Hv as (before & l & rest & Hl & -> & Hne & Hall);
        [|congruence].
      destruct v as [|a v]; [congruence|].
      simpl in Hall; apply andb_true_iff in Hall as [Ha _].
      left. exists before, l, a, (v ++ rest). auto.
    + apply extractVideoId_bare in Hv as (-> & Hlen & Hall); auto.
  - intros H. rewrite extractVideoId_unfold.
    destruct (jsmatch s url_pattern) as [m|] eqn:Hm.
    + now apply url_match_captures in Hm.
    + destruct H as [(before & l & a & rest & Hl & -> & Ha) | [Hlen Hall]].
      * exfalso. revert Hm. apply search_url_finds.
        now apply attempt_url_some.
      * rewrite jsmatch_bare, attempt_bare_run by assumption. discriminate.
Qed.

Lemma extractVideoId_accepts_iff_witness :
  let s := str "see https://youtu.be/x" in
  (exists before l a rest,
     In l shapes /\ s = before ++ l ++ a :: rest /\ none_of delimiters a = true)
  /\ extractVideoId s <> None.
Proof.
  intros s.
  assert (H : exists before l a rest,
            In l shapes /\ s = before ++ l ++ a :: rest
            /\ none_of delimiters a = true).
  { exists (str "see https://"), (str "youtu.be/"), 120%N, [].
    split; [right; left; reflexivity|]. split; reflexivity. }
  exact (conj H (proj2 (extractVideoId_accepts_iff s) (or_introl H))).
Defined.

(** From a URL the extractor keeps everything between the opening and the
    next delimiter (or the end): query parameters that follow are dropped,
    anything else, such as a trailing slash, is part of the identifier. *)
Theorem extractVideoId_keeps_run (before l v rest : jsstring) :
  no_y before = true -> In l shapes ->
  v <> [] -> forallb (none_of delimiters) v = true ->
  stops (none_of delimiters) rest ->
  extractVideoId (before ++ l ++ v ++ rest) = Some v.
Proof.
  intros Hb Hl Hne Hall Hstop.
  rewrite extractVideoId_unfold, jsmatch_url_shape by assumption.
  reflexivity.
Qed.

Lemma extractVideoId_keeps_run_witness :
  let before := str "https://www." in
  let l := str "youtube.com/embed/" in
  let v := str "dQw4w9WgXcQ/" in
  let rest := str "?autoplay=1&mute=1" in
  no_y before = true /\ In l shapes /\ v <> []
  /\ forallb (none_of delimiters) v = true
  /\ stops (none_of delimiters) rest
  /\ extractVideoId (str "https://www.youtube.com/embed/dQw4w9WgXcQ/?autoplay=1&mute=1")
     = Some v.
Proof.
  intros before l v rest.
  assert (H1 : no_y before = true) by reflexivity.
  assert (H2 : In l shapes) by (right; right; left; reflexivity).
  assert (H3 : v <> []) by discriminate.
  assert (H4 : forallb (none_of delimiters) v = true) by reflexivity.
  assert (H5 : stops (none_of delimiters) rest) by reflexivity.
  exact (conj H1 (conj H2 (conj H3 (conj H4 (conj H5
           (@extractVideoId_keeps_run before l v rest H1 H2 H3 H4 H5)))))).
Defined.

End ExtractionFacts.

(** ** Image generation: the other paths of the two handlers *)
Module GenerationPaths.
Import GenAI GenerationTerms GenerationWorlds GenerationFacts.

Lemma scan_image_any_default (d d' : jsstring) (r : generate_response) :
  snd (scan d r) = snd (scan d' r).
Proof. now rewrite !scan_last. Qed.

Lemma respond_no_image (d : jsstring) (r : generate_response) :
  images (answered_parts r) = [] ->
  respond (scan d r) = Response 500 (ErrorBody no_image_error).
Proof.
  intros H. rewrite scan_last, H. reflexivity.
Qed.

Lemma last_in {A : Type} (l : list A) (d : A) : l <> [] -> In (last l d) l.
Proof.
  intros H. destruct (exists_last H) as (l' & x & ->).
  rewrite last_last, in_app_iff. simpl; auto.
Qed.

Lemma respond_image_inv (d0 : jsstring) (r : generate_response)
  (st : nat) (p i : jsstring) (w h : N) :
  respond (scan d0 r) = Response st (ImageBody p i w h) ->
  exists d, In d (images (answered_parts r)) /\ i = png_label ++ d.
Proof.
  rewrite scan_last. unfold respond; cbn [fst snd].
  destruct (images (answered_parts r)) as [|x l] eqn:Hi; [discriminate|].
  assert (Hne : x :: l <> []) by discriminate.
  destruct (exists_last Hne) as (l' & d & Heq). rewrite Heq.
  rewrite map_app; cbn [map]; rewrite last_last.
  destruct (truthy d); [|discriminate].
  intros H; injection H as _ _ <- _ _.
  exists d. rewrite in_app_iff; simpl; auto.
Qed.

(** Without a usable API key (absent or empty) both endpoints answer every
    request whose body parses with 500 "GEMINI_API_KEY not configured" and
    make no outbound call: no source image is fetched and the provider is
    not called, whatever the fields of the request.  The body is parsed
    before the key is looked at: a body that does not parse is answered
    with 500 and the message of the parse error, with or without a key,
    and without any call either. *)
Theorem missing_api_key
  (ge : Generate.env) (greq : Generate.request)
  (ee : Enhanced.env) (ereq : Enhanced.request) (err : exn) (t : trace) :
  (truthy_opt (Generate.GEMINI_API_KEY ge) = false ->
   Generate.POST ge (Ok greq) t
   = (Ok (Response 500 (ErrorBody (str "GEMINI_API_KEY not configured"))), t))
  /\ (truthy_opt (Enhanced.GEMINI_API_KEY ee) = false ->
      Enhanced.POST ee (Ok ereq) t
      = (Ok (Response 500 (ErrorBody (str "GEMINI_API_KEY not configured"))), t))
  /\ Generate.POST ge (Throw err) t
     = (Ok (Response 500 (ErrorBody (error_message err))), t)
  /\ Enhanced.POST ee (Throw err) t
     = (Ok (Response 500 (ErrorBody (error_message err))), t).
Proof.
  split; [|split; [|split; reflexivity]]; intros Hk.
  - unfold Generate.POST, try_catch, bind, await, ret. now rewrite Hk.
  - unfold Enhanced.POST, try_catch, bind, await, ret. now rewrite Hk.
Qed.

Lemma missing_api_key_witness :
  let ereq := enhance_request (str "https://img.example/a.jpg") in
  let greq := text_only ereq in
  let err := JsError (str "Unexpected end of JSON input") in
  truthy_opt (Generate.GEMINI_API_KEY keyless_generate) = false
  /\ truthy_opt (Enhanced.GEMINI_API_KEY keyless_enhanced) = false
  /\ Generate.POST keyless_generate (Ok greq) []
     = (Ok (Response 500 (ErrorBody (str "GEMINI_API_KEY not configured"))), [])
  /\ Enhanced.POST keyless_enhanced (Ok ereq) []
     = (Ok (Response 500 (ErrorBody (str "GEMINI_API_KEY not configured"))), [])
  /\ Generate.POST keyless_generate (Throw err) []
     = (Ok (Response 500 (ErrorBody (str "Unexpected end of JSON input"))), [])
  /\ Enhanced.POST keyless_enhanced (Throw err) []
     = (Ok (Response 500 (ErrorBody (str "Unexpected end of JSON input"))), []).
Proof.
  intros ereq greq err.
  assert (H1 : truthy_opt (Generate.GEMINI_API_KEY keyless_generate) = false)
    by reflexivity.
  assert (H2 : truthy_opt (Enhanced.GEMINI_API_KEY keyless_enhanced) = false)
    by reflexivity.
  destruct (missing_api_key keyless_generate greq keyless_enhanced ereq err [])
    as (Hg & He & Hgt & Het).
  exact (conj H1 (conj H2 (conj (Hg H1) (conj (He H2) (conj Hgt Het))))).
Defined.

(** When the provider's answer holds no non-empty image payload (no
    candidates, no parts, text only, empty data), both endpoints answer 500
    with the "no image data" error, never a success shape with a missing
    image. *)
Theorem no_image_is_500
  (ge : Generate.env) (greq : Generate.request)
  (ee : Enhanced.env) (ereq : Enhanced.request)
  (k : jsstring) (r : generate_response)
  (sent : list request_part) (t : trace) :
  let prompt := generation_prompt (Generate.title greq)
                  (Generate.transcript greq) (Generate.style greq) in
  images (answered_parts r) = [] -> truthy k = true ->
  (Generate.GEMINI_API_KEY ge = Some k ->
   Generate.generateContent ge k (image_params [TextPart prompt]) = Ok r ->
   Generate.POST ge (Ok greq) []
   = (Ok (Response 500 (ErrorBody no_image_error)),
      [GenerateContent k (image_params [TextPart prompt])]))
  /\ (Enhanced.GEMINI_API_KEY ee = Some k ->
      Enhanced.build_parts ee ereq [] = (Ok sent, t) ->
      Enhanced.generateContent ee k (image_params sent) = Ok r ->
      Enhanced.POST ee (Ok ereq) []
      = (Ok (Response 500 (ErrorBody no_image_error)),
         t ++ [GenerateContent k (image_params sent)])).
Proof.
  intros prompt Himg Htk. split.
  - intros Hk Hr.
    rewrite (Generate_POST_answered ge greq Hk Htk Hr).
    now rewrite respond_no_image.
  - intros Hk Hsent Hr.
    rewrite (Enhanced_POST_answered ee ereq Hk Htk Hsent Hr).
    now rewrite respond_no_image.
Qed.

Lemma no_image_is_500_witness :
  let r := answer [text_part "Here is a description instead."] in
  let ereq := plain_request "T" in
  let greq := text_only ereq in
  let prompt := generation_prompt (Some (str "T")) None None in
  images (answered_parts r) = [] /\ truthy (str "key") = true
  /\ Generate.POST (generate_world r) (Ok greq) []
     = (Ok (Response 500 (ErrorBody no_image_error)),
        [GenerateContent (str "key") (image_params [TextPart prompt])])
  /\ Enhanced.POST (enhanced_world r) (Ok ereq) []
     = (Ok (Response 500 (ErrorBody no_image_error)),
        [GenerateContent (str "key") (image_params [TextPart prompt])]).
Proof.
  intros r ereq greq prompt.
  assert (H1 : images (answered_parts r) = []) by reflexivity.
  assert (H2 : truthy (str "key") = true) by reflexivity.
  destruct (@no_image_is_500 (generate_world r) greq (enhanced_world r) ereq
              (str "key") r [TextPart prompt] [] H1 H2) as [Hg He].
  exact (conj H1 (conj H2 (conj (Hg eq_refl eq_refl)
                                (He eq_refl eq_refl eq_refl)))).
Defined.

(** When the provider call throws, both endpoints answer 500 and pass the
    message of the thrown error on to the client ("Failed to generate
    image" when what was thrown is no Error). *)
Theorem provider_failure_is_500
  (ge : Generate.env) (greq : Generate.request)
  (ee : Enhanced.env) (ereq : Enhanced.request)
  (k : jsstring) (err : exn) (sent : list request_part) (t : trace) :
  let prompt := generation_prompt (Generate.title greq)
                  (Generate.transcript greq) (Generate.style greq) in
  truthy k = true ->
  (Generate.GEMINI_API_KEY ge = Some k ->
   Generate.generateContent ge k (image_params [TextPart prompt]) = Throw err ->
   Generate.POST ge (Ok greq) []
   = (Ok (Response 500 (ErrorBody (error_message err))),
      [GenerateContent k (image_params [TextPart prompt])]))
  /\ (Enhanced.GEMINI_API_KEY ee = Some k ->
      Enhanced.build_parts ee ereq [] = (Ok sent, t) ->
      Enhanced.generateContent ee k (image_params sent) = Throw err ->
      Enhanced.POST ee (Ok ereq) []
      = (Ok (Response 500 (ErrorBody (error_message err))),
         t ++ [GenerateContent k (image_params sent)])).
Proof.
  intros prompt Htk. split.
  - intros Hk Hr.
    unfold Generate.POST, try_catch, bind, await, ret, Generate.do_generateContent.
    rewrite Hk; cbn [truthy_opt]; rewrite Htk; cbn [negb app].
    fold prompt. now rewrite Hr.
  - intros Hk Hsent Hr.
    unfold Enhanced.POST, try_catch, bind, await, ret, Enhanced.do_generateContent.
    rewrite Hk; cbn [truthy_opt]; rewrite Htk; cbn [negb].
    now rewrite Hsent, Hr.
Qed.

Lemma provider_failure_is_500_witness :
  let err := JsError (str "429 quota exceeded") in
  let ereq := plain_request "T" in
  let greq := text_only ereq in
  let prompt := generation_prompt (Some (str "T")) None None in
  truthy (str "key") = true
  /\ Generate.POST (refusing_generate err) (Ok greq) []
     = (Ok (Response 500 (ErrorBody (str "429 quota exceeded"))),
        [GenerateContent (str "key") (image_params [TextPart prompt])])
  /\ Enhanced.POST (refusing_enhanced JsThrown) (Ok ereq) []
     = (Ok (Response 500 (ErrorBody (str "Failed to generate image"))),
        [GenerateContent (str "key") (image_params [TextPart prompt])]).
Proof.
  intros err ereq greq prompt.
  assert (H : truthy (str "key") = true) by reflexivity.
  pose proof (proj1 (@provider_failure_is_500 (refusing_generate err) greq
                       (refusing_enhanced err) ereq (str "key") err
                       [TextPart prompt] [] H) eq_refl eq_refl) as Hg.
  pose proof (proj2 (@provider_failure_is_500 (refusing_generate JsThrown) greq
                       (refusing_enhanced JsThrown) ereq (str "key") JsThrown
                       [TextPart prompt] [] H) eq_refl eq_refl eq_refl) as He.
  exact (conj H (conj Hg He)).
Defined.

(** Neither generation endpoint ever rejects: each request is answered,
    with status 200 and the success shape or with status 500 and an error
    body; these handlers have no 400. *)
Theorem generation_always_answers
  (ge : Generate.env) (grq : result Generate.request)
  (ee : Enhanced.env) (erq : result Enhanced.request) (t : trace) :
  (exists resp t',
     Generate.POST ge grq t = (Ok resp, t')
     /\ match resp with
        | Response st (ImageBody _ _ _ _) => st = 200
        | Response st (ErrorBody _) => st = 500
        end)
  /\ (exists resp t',
        Enhanced.POST ee erq t = (Ok resp, t')
        /\ match resp with
           | Response st (ImageBody _ _ _ _) => st = 200
           | Response st (ErrorBody _) => st = 500
           end).
Proof.
  assert (Hrespond : forall found,
            match respond found with
            | Response st (ImageBody _ _ _ _) => st = 200
            | Response st (ErrorBody _) => st = 500
            end).
  { intros found. unfold respond.
    destruct (snd found) as [d|]; [destruct (truthy d)|]; reflexivity. }
  split.
  - unfold Generate.POST, try_catch, bind, await, ret, Generate.do_generateContent.
    destruct grq as [req|err]; [|eexists _, _; split; reflexivity].
    destruct (negb (truthy_opt (Generate.GEMINI_API_KEY ge)));
      [eexists _, _; split; reflexivity|].
    destruct (Generate.generateContent ge _ _) as [r|err];
      eexists _, _; (split; [reflexivity|]); [apply Hrespond | reflexivity].
  - unfold Enhanced.POST, try_catch, bind, await, ret, Enhanced.do_generateContent.
    destruct erq as [req|err]; [|eexists _, _; split; reflexivity].
    destruct (negb (truthy_opt (Enhanced.GEMINI_API_KEY ee)));
      [eexists _, _; split; reflexivity|].
    destruct (Enhanced.build_parts ee req t) as [[sent|err] t1];
      [|eexists _, _; split; reflexivity].
    destruct (Enhanced.generateContent ee _ _) as [r|err];
      eexists _, _; (split; [reflexivity|]); [apply Hrespond | reflexivity].
Qed.

(** The outbound calls of the enhanced endpoint, in order: at most one
    fetch, of the source image of the request, and then at most one call to
    the provider; the provider is never called before the fetch. *)
Theorem enhanced_calls_in_order (e : Enhanced.env) (req : Enhanced.request)
  (resp : result (response body)) (t' : trace) :
  Enhanced.POST e (Ok req) [] = (resp, t') ->
  t' = []
  \/ (exists k p, t' = [GenerateContent k p])
  \/ (exists src,
        Enhanced.sourceImage req = Some src
        /\ (t' = [Fetch src] \/ exists k p, t' = [Fetch src; GenerateContent k p])).
Proof.
  unfold Enhanced.POST, try_catch, bind, await, ret, Enhanced.do_generateContent.
  destruct (negb (truthy_opt (Enhanced.GEMINI_API_KEY e)));
    [intros H; injection H as _ <-; auto|].
  unfold Enhanced.build_parts.
  destruct (Enhanced.is_enhance (Enhanced.mode req)
            && truthy_opt (Enhanced.sourceImage req)) eqn:Hmode.
  - destruct (Enhanced.sourceImage req) as [src|] eqn:Hsrc;
      [|now rewrite andb_false_r in Hmode].
    unfold Enhanced.source_image_part, Enhanced.fetchImageAsBase64,
      Enhanced.do_fetch, bind, ret, throw.
    destruct (startsWith (str "data:") src).
    + destruct (jsmatch src Enhanced.data_uri_pattern) as [m|].
      * destruct (Enhanced.generateContent e _ _);
          intros H; injection H as _ <-; right; left; eauto.
      * intros H; injection H as _ <-; auto.
    + destruct (Enhanced.fetch e src) as [bytes|err]; cbn [app].
      * destruct (Enhanced.generateContent e _ _);
          intros H; injection H as _ <-; right; right; exists src; eauto.
      * intros H; injection H as _ <-. right; right; exists src; auto.
  - unfold ret. destruct (Enhanced.generateContent e _ _);
      intros H; injection H as _ <-; right; left; eauto.
Qed.

Lemma enhanced_calls_in_order_witness :
  let r := answer [image_part "AAAA"] in
  let src := str "https://img.example/a.jpg" in
  let req := enhance_request src in
  let sent := [InlinePart (str "image/jpeg") (str "AQID");
               TextPart (Enhanced.enhancement_prompt (Some (str "T")) None None)] in
  let t' := [Fetch src; GenerateContent (str "key") (image_params sent)] in
  snd (Enhanced.POST (serving [1; 2; 3]%N r) (Ok req) []) = t'
  /\ (t' = []
      \/ (exists k p, t' = [GenerateContent k p])
      \/ (exists src0,
            Enhanced.sourceImage req = Some src0
            /\ (t' = [Fetch src0]
                \/ exists k p, t' = [Fetch src0; GenerateContent k p]))).
Proof.
  intros r src req sent t'.
  assert (H : snd (Enhanced.POST (serving [1; 2; 3]%N r) (Ok req) []) = t')
    by reflexivity.
  refine (conj H _).
  apply (@enhanced_calls_in_order (serving [1; 2; 3]%N r) req
           (fst (Enhanced.POST (serving [1; 2; 3]%N r) (Ok req) []))).
  rewrite <- H. apply surjective_pairing.
Defined.

(** Outside enhancement mode (the mode is not "enhance", or there is no
    source image) the enhanced endpoint ignores the source image and
    behaves as the text-only endpoint on the same title, transcript and
    style: the same calls are made, and the answers have the same status,
    the same error or the same image; only [imagePrompt] may differ. *)
Theorem enhanced_agrees_with_generate
  (ee : Enhanced.env) (ge : Generate.env) (req : Enhanced.request) (t : trace) :
  Enhanced.GEMINI_API_KEY ee = Generate.GEMINI_API_KEY ge ->
  Enhanced.generateContent ee = Generate.generateContent ge ->
  Enhanced.is_enhance (Enhanced.mode req)
  && truthy_opt (Enhanced.sourceImage req) = false ->
  snd (Enhanced.POST ee (Ok req) t) = snd (Generate.POST ge (Ok (text_only req)) t)
  /\ match fst (Generate.POST ge (Ok (text_only req)) t),
           fst (Enhanced.POST ee (Ok req) t) with
     | Ok (Response sg (ImageBody _ ig wg hg)),
       Ok (Response se (ImageBody _ ie we he)) =>
         sg = se /\ ig = ie /\ wg = we /\ hg = he
     | Ok (Response sg (ErrorBody mg)), Ok (Response se (ErrorBody me)) =>
         sg = se /\ mg = me
     | _, _ => False
     end.
Proof.
  intros Hkey Hgen Hmode.
  unfold Enhanced.POST, Generate.POST, try_catch, bind, await, ret,
    Enhanced.do_generateContent, Generate.do_generateContent, Enhanced.build_parts.
  rewrite Hkey, Hgen, Hmode. unfold ret, text_only; cbn [Generate.title
    Generate.transcript Generate.style].
  destruct (negb (truthy_opt (Generate.GEMINI_API_KEY ge))); [simpl; auto|].
  destruct (Generate.generateContent ge _ _) as [r|err]; cbn [fst snd];
    [|auto].
  split; [reflexivity|].
  unfold respond.
  rewrite (scan_image_any_default (Enhanced.default_prompt (Enhanced.mode req))
             (generation_prompt (Enhanced.title req) (Enhanced.transcript req)
                (Enhanced.style req)) r).
  destruct (snd (scan _ r)) as [d|]; [destruct (truthy d)|]; simpl; auto.
Qed.

Lemma enhanced_agrees_with_generate_witness :
  let r := answer [image_part "AAAA"] in
  let req := Enhanced.Request (Some (str "T")) None None
               (Some (str "https://img.example/a.jpg")) (Some (str "generate")) in
  Enhanced.is_enhance (Enhanced.mode req)
  && truthy_opt (Enhanced.sourceImage req) = false
  /\ snd (Enhanced.POST (enhanced_world r) (Ok req) [])
     = snd (Generate.POST (generate_world r) (Ok (text_only req)) [])
  /\ fst (Enhanced.POST (enhanced_world r) (Ok req) [])
     = Ok (Response 200 (ImageBody (str "AI generated")
                           (str "data:image/png;base64,AAAA") 1200 628)).
Proof.
  intros r req.
  assert (H : Enhanced.is_enhance (Enhanced.mode req)
              && truthy_opt (Enhanced.sourceImage req) = false) by reflexivity.
  exact (conj H (conj
           (proj1 (@enhanced_agrees_with_generate (enhanced_world r)
                     (generate_world r) req [] eq_refl eq_refl H))
           eq_refl)).
Defined.

(** The groups of the data URI pattern on a string of the shape. *)
Lemma data_uri_captures (mime payload : jsstring) :
  mime <> [] -> forallb (none_of [59%N]) mime = true ->
  payload <> [] -> forallb dot payload = true ->
  let s := str "data:" ++ mime ++ str ";base64," ++ payload in
  jsmatch s Enhanced.data_uri_pattern = Some [(0, s); (2, payload); (1, mime)].
Proof.
  intros Hm Hmall Hp Hpall s. subst s.
  unfold Enhanced.data_uri_pattern. rewrite jsmatch_anchored.
  unfold attempt; cbn [run andb].
  rewrite strip_prefix_app.
  erewrite plus_greedy; [reflexivity | exact Hm | exact Hmall | reflexivity |].
  cbn beta. rewrite strip_prefix_app.
  rewrite <- (app_nil_r payload) at 1.
  erewrite plus_greedy; [reflexivity | exact Hp | exact Hpall | exact I |].
  now rewrite !consumed_all, consumed_app.
Qed.

(** In enhancement mode a well-formed data URI is taken apart locally:
    nothing is fetched, and the parts sent are the image with the type and
    the payload of the URI, followed by the enhancement prompt. *)
Theorem enhanced_data_uri_parts (e : Enhanced.env) (req : Enhanced.request)
  (mime payload : jsstring) (t : trace) :
  Enhanced.mode req = Some (str "enhance") ->
  Enhanced.sourceImage req
  = Some (str "data:" ++ mime ++ str ";base64," ++ payload) ->
  mime <> [] -> forallb (none_of [59%N]) mime = true ->
  payload <> [] -> forallb dot payload = true ->
  Enhanced.build_parts e req t
  = (Ok [InlinePart mime payload;
         TextPart (Enhanced.enhancement_prompt (Enhanced.title req)
                     (Enhanced.transcript req) (Enhanced.style req))], t).
Proof.
  intros Hmode Hsrc Hm Hmall Hp Hpall.
  unfold Enhanced.build_parts, Enhanced.source_image_part, bind, ret.
  rewrite Hmode, Hsrc.
  change (Enhanced.is_enhance (Some (str "enhance"))) with true.
  cbn [andb truthy_opt].
  change (truthy (str "data:" ++ mime ++ str ";base64," ++ payload)) with true.
  cbv iota.
  unfold startsWith. rewrite strip_prefix_app.
  pose proof (data_uri_captures Hm Hmall Hp Hpall) as Hc. cbv zeta in Hc.
  now rewrite Hc.
Qed.

Lemma enhanced_data_uri_parts_witness :
  let mime := str "image/webp" in
  let payload := str "UklGRg==" in
  let req := enhance_request (str "data:image/webp;base64,UklGRg==") in
  mime <> [] /\ forallb (none_of [59%N]) mime = true
  /\ payload <> [] /\ forallb dot payload = true
  /\ Enhanced.build_parts (enhanced_world (answer [])) req []
     = (Ok [InlinePart mime payload;
            TextPart (Enhanced.enhancement_prompt (Some (str "T")) None None)],
        []).
Proof.
  intros mime payload req.
  assert (H1 : mime <> []) by discriminate.
  assert (H2 : forallb (none_of [59%N]) mime = true) by reflexivity.
  assert (H3 : payload <> []) by discriminate.
  assert (H4 : forallb dot payload = true) by reflexivity.
  exact (conj H1 (conj H2 (conj H3 (conj H4
           (@enhanced_data_uri_parts (enhanced_world (answer [])) req
              mime payload [] eq_refl eq_refl H1 H2 H3 H4))))).
Defined.

(** In enhancement mode a source that does not start with "data:" is
    fetched as a URL: the bytes served are sent base64-encoded under the
    type image/jpeg, whatever they are, ahead of the enhancement prompt; if
    the fetch throws the endpoint answers 500 with its message and the
    provider is not called. *)
Theorem enhanced_url_source (e : Enhanced.env) (req : Enhanced.request)
  (src k : jsstring) (t : trace) :
  Enhanced.mode req = Some (str "enhance") ->
  Enhanced.sourceImage req = Some src -> truthy src = true ->
  startsWith (str "data:") src = false ->
  (forall bytes,
     Enhanced.fetch e src = Ok bytes ->
     Enhanced.build_parts e req t
     = (Ok [InlinePart (str "image/jpeg") (Base64.encode bytes);
            TextPart (Enhanced.enhancement_prompt (Enhanced.title req)
                        (Enhanced.transcript req) (Enhanced.style req))],
        t ++ [Fetch src]))
  /\ (forall err,
        Enhanced.fetch e src = Throw err ->
        Enhanced.GEMINI_API_KEY e = Some k -> truthy k = true ->
        Enhanced.POST e (Ok req) []
        = (Ok (Response 500 (ErrorBody (error_message err))), [Fetch src])).
Proof.
  intros Hmode Hsrc Htrue Hstart.
  assert (Hb : forall t0,
            Enhanced.build_parts e req t0
            = match Enhanced.fetch e src with
              | Ok bytes =>
                  (Ok [InlinePart (str "image/jpeg") (Base64.encode bytes);
                       TextPart (Enhanced.enhancement_prompt (Enhanced.title req)
                                   (Enhanced.transcript req) (Enhanced.style req))],
                   t0 ++ [Fetch src])
              | Throw err => (Throw err, t0 ++ [Fetch src])
              end).
  { intros t0.
    unfold Enhanced.build_parts, Enhanced.source_image_part,
      Enhanced.fetchImageAsBase64, Enhanced.do_fetch, bind, ret.
    rewrite Hmode, Hsrc.
    change (Enhanced.is_enhance (Some (str "enhance"))) with true.
    cbn [andb truthy_opt]. rewrite Htrue, Hstart.
    now destruct (Enhanced.fetch e src). }
  split.
  - intros bytes Hf. now rewrite Hb, Hf.
  - intros err Hf Hk Htk.
    unfold Enhanced.POST, try_catch, bind, await, ret.
    rewrite Hk; cbn [truthy_opt]; rewrite Htk; cbn [negb].
    now rewrite Hb, Hf.
Qed.

Lemma enhanced_url_source_witness :
  let src := str "https://img.example/a.jpg" in
  let req := enhance_request src in
  let e := serving [1; 2; 3]%N (answer []) in
  truthy src = true /\ startsWith (str "data:") src = false
  /\ Enhanced.fetch e src = Ok [1; 2; 3]%N
  /\ Enhanced.build_parts e req []
     = (Ok [InlinePart (str "image/jpeg") (str "AQID");
            TextPart (Enhanced.enhancement_prompt (Some (str "T")) None None)],
        [Fetch src]).
Proof.
  intros src req e.
  assert (H1 : truthy src = true) by reflexivity.
  assert (H2 : startsWith (str "data:") src = false) by reflexivity.
  assert (H3 : Enhanced.fetch e src = Ok [1; 2; 3]%N) by reflexivity.
  exact (conj H1 (conj H2 (conj H3
           (proj1 (@enhanced_url_source e req src (str "key") []
                     eq_refl eq_refl H1 H2) _ H3)))).
Defined.

Lemma context_line_prefix (label : string) (n : nat) (tr : jsstring) :
  context_line label (S n) (Some tr)
  = context_line label (S n) (Some (slice0 (S n) tr)).
Proof.
  unfold context_line, slice0.
  rewrite firstn_firstn, Nat.min_id.
  now destruct tr.
Qed.

(** Only the first 1500 characters of the transcript (1000 in enhancement
    mode) reach the prompt, an empty transcript or style counts as an
    absent one, and so the text-only endpoint answers a request and the
    request with the transcript cut to 1500 characters alike. *)
Theorem prompt_reads_transcript_prefix
  (e : Generate.env) (ti sty tr0 : option jsstring) (tr : jsstring) (t : trace) :
  generation_prompt ti (Some tr) sty
  = generation_prompt ti (Some (slice0 1500 tr)) sty
  /\ Enhanced.enhancement_prompt ti (Some tr) sty
     = Enhanced.enhancement_prompt ti (Some (slice0 1000 tr)) sty
  /\ generation_prompt ti (Some []) sty = generation_prompt ti None sty
  /\ generation_prompt ti tr0 (Some []) = generation_prompt ti tr0 None
  /\ Generate.POST e (Ok (Generate.Request ti (Some tr) sty)) t
     = Generate.POST e (Ok (Generate.Request ti (Some (slice0 1500 tr)) sty)) t.
Proof.
  assert (Hg : generation_prompt ti (Some tr) sty
               = generation_prompt ti (Some (slice0 1500 tr)) sty).
  { unfold generation_prompt.
    now rewrite (context_line_prefix "Context: " 1499 tr). }
  repeat split; try reflexivity; try exact Hg.
  - unfold Enhanced.enhancement_prompt.
    now rewrite (context_line_prefix "Content context: " 999 tr).
  - unfold Generate.POST, try_catch, bind, await.
    cbn [Generate.title Generate.transcript Generate.style].
    now rewrite <- Hg.
Qed.

(** The image of every success response is a non-empty payload that the
    provider returned in the first candidate of its answer, under the
    label image/png whatever type the provider declared for it. *)
Theorem image_comes_from_provider
  (ge : Generate.env) (grq : result Generate.request)
  (ee : Enhanced.env) (erq : result Enhanced.request)
  (t t' : trace) (st : nat) (p i : jsstring) (w h : N) :
  (Generate.POST ge grq t = (Ok (Response st (ImageBody p i w h)), t') ->
   exists k prm r d,
     Generate.generateContent ge k prm = Ok r
     /\ In d (images (answered_parts r)) /\ i = png_label ++ d)
  /\ (Enhanced.POST ee erq t = (Ok (Response st (ImageBody p i w h)), t') ->
      exists k prm r d,
        Enhanced.generateContent ee k prm = Ok r
        /\ In d (images (answered_parts r)) /\ i = png_label ++ d).
Proof.
  split.
  - unfold Generate.POST, try_catch, bind, await, ret, Generate.do_generateContent.
    destruct grq as [req|err]; [|discriminate].
    destruct (negb (truthy_opt (Generate.GEMINI_API_KEY ge))); [discriminate|].
    destruct (Generate.generateContent ge _ _) as [r|err] eqn:Hr; [|discriminate].
    intros H; injection H as H _.
    apply respond_image_inv in H as (d & Hd & Hi). eauto 8.
  - unfold Enhanced.POST, try_catch, bind, await, ret, Enhanced.do_generateContent.
    destruct erq as [req|err]; [|discriminate].
    destruct (negb (truthy_opt (Enhanced.GEMINI_API_KEY ee))); [discriminate|].
    destruct (Enhanced.build_parts ee req t) as [[sent|err] t1]; [|discriminate].
    destruct (Enhanced.generateContent ee _ _) as [r|err] eqn:Hr; [|discriminate].
    intros H; injection H as H _.
    apply respond_image_inv in H as (d & Hd & Hi). eauto 8.
Qed.

Lemma image_comes_from_provider_witness :
  let r := answer [Part None (Some (InlineData (Some (str "image/jpeg"))
                                      (Some (str "AAAA"))))] in
  let greq := Generate.Request (Some (str "T")) None None in
  let prompt := generation_prompt (Some (str "T")) None None in
  let sent := [GenerateContent (str "key") (image_params [TextPart prompt])] in
  Generate.POST (generate_world r) (Ok greq) []
  = (Ok (Response 200 (ImageBody prompt (str "data:image/png;base64,AAAA")
                         1200 628)), sent)
  /\ exists k prm r0 d,
       Generate.generateContent (generate_world r) k prm = Ok r0
       /\ In d (images (answered_parts r0))
       /\ str "data:image/png;base64,AAAA" = png_label ++ d.
Proof.
  intros r greq prompt sent.
  assert (H : Generate.POST (generate_world r) (Ok greq) []
              = (Ok (Response 200
                       (ImageBody prompt (str "data:image/png;base64,AAAA")
                          1200 628)), sent)) by reflexivity.
  exact (conj H
           (proj1 (@image_comes_from_provider (generate_world r) (Ok greq)
                     (enhanced_world r) (Ok (plain_request "T"))
                     [] sent 200 prompt (str "data:image/png;base64,AAAA")
                     1200 628) H)).
Defined.

End GenerationPaths.

(** ** Frame extraction: the other paths of the handler *)
Module FramePaths.
Import JsNumber Frame FrameTerms FrameWorlds.

Lemma has_path_eq (p : jsstring) (entry : jsstring * list N) :
  has_path p entry = true <-> fst entry = p.
Proof. apply jsstring_eqb_eq. Qed.

Lemma remove_path_gone (p : jsstring) (fs : filesystem) :
  existsb (has_path p) (remove_path p fs) = false.
Proof.
  induction fs as [|entry fs IH]; [reflexivity|].
  unfold remove_path in *; simpl.
  destruct (has_path p entry) eqn:Hp; simpl; [exact IH|].
  now rewrite Hp, IH.
Qed.

Lemma remove_path_absent (p : jsstring) (fs : filesystem) :
  existsb (has_path p) fs = false -> remove_path p fs = fs.
Proof.
  induction fs as [|entry fs IH]; [reflexivity|].
  unfold remove_path in *; simpl. intros H.
  apply orb_false_iff in H as [Hp Hfs].
  now rewrite Hp, IH.
Qed.

Lemma remove_path_other (p q : jsstring) (fs : filesystem) :
  q <> p -> find (has_path q) (remove_path p fs) = find (has_path q) fs.
Proof.
  intros Hq. induction fs as [|entry fs IH]; [reflexivity|].
  unfold remove_path in *; simpl.
  destruct (has_path p entry) eqn:Hp; simpl.
  - destruct (has_path q entry) eqn:Hqe; [|exact IH].
    apply has_path_eq in Hp. apply has_path_eq in Hqe. congruence.
  - now rewrite IH.
Qed.

(** The clean-up block never throws and starts no process.  When the
    system lets both files go, neither temporary path exists afterwards and
    every other file keeps its contents. *)
Lemma cleanup_removes (e : env) (vp fp : jsstring) (st : state) :
  unlink_error e vp = None -> unlink_error e fp = None ->
  cleanup e vp fp st
  = (Ok tt, State (calls st) (remove_path fp (remove_path vp (files st)))).
Proof.
  intros Hv Hf.
  destruct st as [cs fs].
  unfold cleanup, try_catch, bind, ret, existsSync, unlinkSync.
  cbn [files calls].
  destruct (existsb (has_path vp) fs) eqn:Ev;
    repeat progress (rewrite ?Ev, ?Hv; cbn [files calls]).
  - fold (remove_path vp fs).
    destruct (existsb (has_path fp) (remove_path vp fs)) eqn:Ef;
      repeat progress (rewrite ?Ef, ?Hf; cbn [files calls]).
    + reflexivity.
    + now rewrite (remove_path_absent _ _ Ef).
  - rewrite (remove_path_absent _ _ Ev).
    destruct (existsb (has_path fp) fs) eqn:Ef;
      repeat progress (rewrite ?Ef, ?Hf; cbn [files calls]).
    + reflexivity.
    + now rewrite (remove_path_absent _ _ Ef).
Qed.

Lemma cleanup_total (e : env) (vp fp : jsstring) (st : state) :
  exists fs', cleanup e vp fp st = (Ok tt, State (calls st) fs').
Proof.
  destruct st as [cs fs].
  unfold cleanup, try_catch, bind, ret, existsSync, unlinkSync.
  cbn [files calls].
  destruct (existsb (has_path vp) fs) eqn:Ev;
    repeat progress (rewrite ?Ev; cbn [files calls]).
  - destruct (unlink_error e vp); [eauto|]. cbn [files calls].
    destruct (existsb (has_path fp) _) eqn:Ef;
      repeat progress (rewrite ?Ef; cbn [files calls]); [|eauto].
    destruct (unlink_error e fp); eauto.
  - destruct (existsb (has_path fp) fs) eqn:Ef;
      repeat progress (rewrite ?Ef; cbn [files calls]); [|eauto].
    destruct (unlink_error e fp); eauto.
Qed.

Lemma remove_path_keeps_absent (p q : jsstring) (fs : filesystem) :
  existsb (has_path q) fs = false ->
  existsb (has_path q) (remove_path p fs) = false.
Proof.
  induction fs as [|entry fs IH]; [reflexivity|].
  unfold remove_path in *; simpl. intros H.
  apply orb_false_iff in H as [Hq Hfs].
  destruct (has_path p entry); simpl; [auto|].
  now rewrite Hq, IH.
Qed.

Lemma find_existsb {A : Type} (f : A -> bool) (l : list A) (x : A) :
  find f l = Some x -> existsb f l = true.
Proof.
  intros H. apply find_some in H as [Hin Hf].
  apply existsb_exists. eauto.
Qed.

(** The clean-up block never throws.  When the system lets both files go,
    neither temporary path exists afterwards, every file under another
    path is kept with its contents, and no process is started. *)
Theorem cleanup_deletes_both (e : env) (vp fp : jsstring) (st : state) :
  unlink_error e vp = None -> unlink_error e fp = None ->
  exists fs',
    cleanup e vp fp st = (Ok tt, State (calls st) fs')
    /\ existsb (has_path vp) fs' = false
    /\ existsb (has_path fp) fs' = false
    /\ forall q, q <> vp -> q <> fp ->
         find (has_path q) fs' = find (has_path q) (files st).
Proof.
  intros Hv Hf. exists (remove_path fp (remove_path vp (files st))).
  split; [now apply cleanup_removes|].
  split; [apply remove_path_keeps_absent, remove_path_gone|].
  split; [apply remove_path_gone|].
  intros q Hqv Hqf. now rewrite !remove_path_other.
Qed.

Lemma cleanup_deletes_both_witness :
  let vp := str "/tmp/video-1700000000000.mp4" in
  let fp := str "/tmp/frame-1700000000001.jpg" in
  unlink_error working_host vp = None /\ unlink_error working_host fp = None
  /\ exists fs',
       cleanup working_host vp fp (State [] leftovers) = (Ok tt, State [] fs')
       /\ existsb (has_path vp) fs' = false
       /\ existsb (has_path fp) fs' = false
       /\ forall q, q <> vp -> q <> fp ->
            find (has_path q) fs' = find (has_path q) leftovers.
Proof.
  intros vp fp.
  assert (H1 : unlink_error working_host vp = None) by reflexivity.
  assert (H2 : unlink_error working_host fp = None) by reflexivity.
  exact (conj H1 (conj H2
           (@cleanup_deletes_both working_host vp fp (State [] leftovers) H1 H2))).
Defined.

(** The clean-up block gives up at the first file the system refuses to
    delete, and swallows the error: when the video file exists and cannot
    be deleted, the frame file is left on disk as well. *)
Theorem cleanup_gives_up (e : env) (vp fp : jsstring) (st : state) (err : exn) :
  existsb (has_path vp) (files st) = true ->
  unlink_error e vp = Some err ->
  cleanup e vp fp st = (Ok tt, st).
Proof.
  intros Ev Hv. destruct st as [cs fs].
  unfold cleanup, try_catch, bind, ret, existsSync, unlinkSync.
  cbn [files calls] in *.
  now repeat progress (rewrite ?Ev, ?Hv; cbn [files calls]).
Qed.

Lemma cleanup_gives_up_witness :
  let vp := str "/tmp/video-1700000000000.mp4" in
  let fp := str "/tmp/frame-1700000000001.jpg" in
  existsb (has_path vp) leftovers = true
  /\ unlink_error read_only_host vp
     = Some (JsError (str "EPERM: operation not permitted"))
  /\ cleanup read_only_host vp fp (State [] leftovers)
     = (Ok tt, State [] leftovers)
  /\ existsb (has_path fp) leftovers = true.
Proof.
  intros vp fp.
  assert (H1 : existsb (has_path vp) leftovers = true) by reflexivity.
  assert (H2 : unlink_error read_only_host vp
               = Some (JsError (str "EPERM: operation not permitted")))
    by reflexivity.
  exact (conj H1 (conj H2
           (conj (@cleanup_gives_up read_only_host vp fp (State [] leftovers) _
                    H1 H2) eq_refl))).
Defined.

(** Replaces a run of the clean-up block by its outcome. *)
Ltac use_cleanup_total :=
  cbn [calls files];
  match goal with
  | |- context [cleanup ?e ?vp ?fp ?st] =>
      let fs' := fresh "fs'" in
      let Hc := fresh "Hc" in
      destruct (cleanup_total e vp fp st) as [fs' Hc];
      rewrite Hc; cbn [calls files]
  end.

(** The frame handler never rejects: every request is answered, with
    status 200 and frame data or with an error body under status 400 or
    500. *)
Theorem frame_always_answers (e : env) (rq : result request) (st : state) :
  exists resp st',
    POST e rq st = (Ok resp, st')
    /\ match resp with
       | Response code (FrameBody _ _) => code = 200
       | Response code (ErrorBody _) => code = 400 \/ code = 500
       end.
Proof.
  destruct st as [cs fs].
  unfold POST, run_tools, try_catch, bind, await, ret, execAsync,
    existsSync, readFileSync.
  destruct rq as [req|err].
  - destruct (negb (truthy_opt (videoId req)));
      [eexists _, _; split; [reflexivity|simpl; auto]|].
    cbn [files calls].
    destruct (exec e (YtDlp _) _ fs) as [[out|err] fs1]; cbn [files calls];
      [|eexists _, _; split; [reflexivity|simpl; auto]].
    destruct (exec e (Ffmpeg _ _ _) _ fs1) as [[out2|err] fs2]; cbn [files calls];
      [|eexists _, _; split; [reflexivity|simpl; auto]].
    destruct (existsb (has_path (framePath e)) fs2); cbn [negb files calls];
      [|eexists _, _; split; [reflexivity|simpl; auto]].
    destruct (find (has_path (framePath e)) fs2) as [entry|].
    + use_cleanup_total. eexists _, _; split; [reflexivity|simpl; auto].
    + use_cleanup_total. eexists _, _; split; [reflexivity|simpl; auto].
  - use_cleanup_total. eexists _, _; split; [reflexivity|simpl; auto].
Qed.

(** The processes of one request, in order: none without a video
    identifier; otherwise yt-dlp first, for the watch URL of the identifier
    and with a timeout of 30 seconds; and, only when yt-dlp ended well,
    ffmpeg with a timeout of 60 seconds, at the requested offset, on the
    first line of what yt-dlp printed and with the frame path as output. *)
Theorem frame_processes_in_order (e : env) (req : request) (fs : filesystem)
  (resp : result (response body)) (st' : state) :
  POST e (Ok req) (State [] fs) = (resp, st') ->
  (truthy_opt (videoId req) = false /\ calls st' = [])
  \/ exists v,
       videoId req = Some v
       /\ (calls st' = [Exec (YtDlp (watch_url v)) 30000]
           \/ exists out fs1,
                exec e (YtDlp (watch_url v)) 30000 fs = (Ok out, fs1)
                /\ calls st'
                   = [Exec (YtDlp (watch_url v)) 30000;
                      Exec (Ffmpeg (requested_seconds (timestamp req))
                              (hd [] (split 10%N (trim out))) (framePath e))
                        60000]).
Proof.
  unfold POST, run_tools, try_catch, bind, await, ret, execAsync,
    existsSync, readFileSync.
  destruct (videoId req) as [v|] eqn:Hv; cbn [truthy_opt negb];
    [|intros H; injection H as _ <-; auto].
  destruct (truthy v) eqn:Htv; cbn [negb];
    [|intros H; injection H as _ <-; auto].
  right; exists v; split; [reflexivity|]. revert H.
  cbn [files calls app].
  destruct (exec e (YtDlp (watch_url v)) 30000 fs) as [[out|err] fs1] eqn:Hy;
    cbn [files calls app]; [|intros H; injection H as _ <-; auto].
  right; exists out, fs1; split; [reflexivity|]. revert H.
  destruct (exec e (Ffmpeg _ _ _) _ fs1) as [[out2|err] fs2];
    cbn [files calls app]; [|intros H; injection H as _ <-; auto].
  destruct (existsb (has_path (framePath e)) fs2); cbn [negb files calls];
    [|intros H; injection H as _ <-; auto].
  destruct (find (has_path (framePath e)) fs2) as [entry|];
    use_cleanup_total; intros H; injection H as _ <-; reflexivity.
Qed.

Lemma frame_processes_in_order_witness :
  let req := Request (Some (str "dQw4w9WgXcQ")) (Some (str "1:30")) in
  let v := str "dQw4w9WgXcQ" in
  let st' := snd (POST working_host (Ok req) (State [] [])) in
  calls st'
  = [Exec (YtDlp (watch_url v)) 30000;
     Exec (Ffmpeg (Int 90) (str "https://media.example/v.mp4")
             (str "/tmp/frame-1700000000001.jpg")) 60000]
  /\ ((truthy_opt (videoId req) = false /\ calls st' = [])
      \/ exists v0,
           videoId req = Some v0
           /\ (calls st' = [Exec (YtDlp (watch_url v0)) 30000]
               \/ exists out fs1,
                    exec working_host (YtDlp (watch_url v0)) 30000 []
                    = (Ok out, fs1)
                    /\ calls st'
                       = [Exec (YtDlp (watch_url v0)) 30000;
                          Exec (Ffmpeg (requested_seconds (timestamp req))
                                  (hd [] (split 10%N (trim out)))
                                  (framePath working_host)) 60000])).
Proof.
  intros req v st'.
  refine (conj eq_refl _).
  apply (@frame_processes_in_order working_host req []
           (fst (POST working_host (Ok req) (State [] [])))).
  apply surjective_pairing.
Defined.

(** When both tools end well and the frame file is there, the answer is a
    200 whose frame data is the JPEG data URI of the base64 of the file;
    when the system lets the files go, the frame file and the video
    placeholder are gone once the response is sent and nothing else on the
    disk is touched. *)
Theorem frame_success (e : env) (req : request) (v out out2 : jsstring)
  (fs fs1 fs2 : filesystem) (entry : jsstring * list N) :
  let cmd := Ffmpeg (requested_seconds (timestamp req))
               (hd [] (split 10%N (trim out))) (framePath e) in
  videoId req = Some v -> truthy v = true ->
  exec e (YtDlp (watch_url v)) 30000 fs = (Ok out, fs1) ->
  exec e cmd 60000 fs1 = (Ok out2, fs2) ->
  find (has_path (framePath e)) fs2 = Some entry ->
  unlink_error e (videoPath e) = None -> unlink_error e (framePath e) = None ->
  POST e (Ok req) (State [] fs)
  = (Ok (Response 200
           (FrameBody (str "data:image/jpeg;base64," ++ Base64.encode (snd entry))
              None)),
     State [Exec (YtDlp (watch_url v)) 30000; Exec cmd 60000]
       (remove_path (framePath e) (remove_path (videoPath e) fs2))).
Proof.
  intros cmd Hv Htv Hy Hf Hfind Huv Huf.
  unfold POST, run_tools, try_catch, bind, await, ret, execAsync,
    existsSync, readFileSync.
  rewrite Hv; cbn [truthy_opt]; rewrite Htv; cbn [negb files calls app].
  rewrite Hy; cbn [files calls app]. fold cmd. rewrite Hf; cbn [files calls app].
  rewrite (find_existsb _ _ Hfind); cbn [negb files calls].
  rewrite Hfind.
  now rewrite (cleanup_removes e (videoPath e) (framePath e) _ Huv Huf).
Qed.

Lemma frame_success_witness :
  let req := Request (Some (str "dQw4w9WgXcQ")) None in
  let fp := str "/tmp/frame-1700000000001.jpg" in
  let notes := (str "/tmp/notes.txt", [104; 105]%N) in
  POST working_host (Ok req) (State [] [notes])
  = (Ok (Response 200 (FrameBody (str "data:image/jpeg;base64,/9j/") None)),
     State [Exec (YtDlp (watch_url (str "dQw4w9WgXcQ"))) 30000;
            Exec (Ffmpeg (Int 0) (str "https://media.example/v.mp4") fp) 60000]
       [notes]).
Proof.
  intros req fp notes.
  exact (@frame_success working_host req (str "dQw4w9WgXcQ")
           (str "https://media.example/v.mp4" ++ [10%N]
            ++ str "https://media.example/a.m4a" ++ [10%N])
           [] [notes] [notes] [notes; (fp, [255; 216; 255]%N)]
           (fp, [255; 216; 255]%N)
           eq_refl eq_refl eq_refl eq_refl eq_refl eq_refl eq_refl).
Defined.

(** When both tools end well but no file is at the frame path, the answer
    is 500 "Failed to extract frame", and the handler returns without the
    clean-up: the disk stays as the tools left it. *)
Theorem frame_missing_is_500 (e : env) (req : request) (v out out2 : jsstring)
  (fs fs1 fs2 : filesystem) :
  let cmd := Ffmpeg (requested_seconds (timestamp req))
               (hd [] (split 10%N (trim out))) (framePath e) in
  videoId req = Some v -> truthy v = true ->
  exec e (YtDlp (watch_url v)) 30000 fs = (Ok out, fs1) ->
  exec e cmd 60000 fs1 = (Ok out2, fs2) ->
  existsb (has_path (framePath e)) fs2 = false ->
  POST e (Ok req) (State [] fs)
  = (Ok (Response 500 (ErrorBody (str "Failed to extract frame"))),
     State [Exec (YtDlp (watch_url v)) 30000; Exec cmd 60000] fs2).
Proof.
  intros cmd Hv Htv Hy Hf Hno.
  unfold POST, run_tools, try_catch, bind, await, ret, execAsync, existsSync.
  rewrite Hv; cbn [truthy_opt]; rewrite Htv; cbn [negb files calls app].
  rewrite Hy; cbn [files calls app]. fold cmd. rewrite Hf; cbn [files calls app].
  now rewrite Hno.
Qed.

Lemma frame_missing_is_500_witness :
  let req := Request (Some (str "dQw4w9WgXcQ")) (Some (str "0:05")) in
  let notes := [(str "/tmp/notes.txt", [104; 105]%N)] in
  existsb (has_path (framePath silent_ffmpeg)) notes = false
  /\ POST silent_ffmpeg (Ok req) (State [] notes)
     = (Ok (Response 500 (ErrorBody (str "Failed to extract frame"))),
        State [Exec (YtDlp (watch_url (str "dQw4w9WgXcQ"))) 30000;
               Exec (Ffmpeg (Int 5) (str "https://media.example/v.mp4")
                       (str "/tmp/frame-1700000000001.jpg")) 60000]
          notes).
Proof.
  intros req notes.
  assert (H : existsb (has_path (framePath silent_ffmpeg)) notes = false)
    by reflexivity.
  exact (conj H
           (@frame_missing_is_500 silent_ffmpeg req (str "dQw4w9WgXcQ")
              (str "https://media.example/v.mp4") [] notes notes notes
              eq_refl eq_refl eq_refl eq_refl H)).
Defined.

(** A request whose body does not parse is answered 500 with the message
    of the error; no process is started, and the outer [catch] still runs
    the clean-up, which deletes whatever lies at the two temporary paths of
    this request. *)
Theorem frame_unparsable_body (e : env) (err : exn) (cs : list call)
  (fs : filesystem) :
  unlink_error e (videoPath e) = None -> unlink_error e (framePath e) = None ->
  POST e (Throw err) (State cs fs)
  = (Ok (Response 500 (ErrorBody (error_message err))),
     State cs (remove_path (framePath e) (remove_path (videoPath e) fs))).
Proof.
  intros Huv Huf.
  unfold POST, try_catch, bind, await, ret.
  now rewrite (cleanup_removes e (videoPath e) (framePath e) _ Huv Huf).
Qed.

Lemma frame_unparsable_body_witness :
  let err := JsError (str "Unexpected end of JSON input") in
  unlink_error working_host (videoPath working_host) = None
  /\ unlink_error working_host (framePath working_host) = None
  /\ POST working_host (Throw err) (State [] leftovers)
     = (Ok (Response 500 (ErrorBody (str "Unexpected end of JSON input"))),
        State [] [(str "/tmp/notes.txt", [104; 105]%N)]).
Proof.
  intros err.
  assert (H1 : unlink_error working_host (videoPath working_host) = None)
    by reflexivity.
  assert (H2 : unlink_error working_host (framePath working_host) = None)
    by reflexivity.
  exact (conj H1 (conj H2
           (@frame_unparsable_body working_host err [] leftovers H1 H2))).
Defined.

End FramePaths.

(** ** Timestamps made of decimal numbers *)
Module TimestampFacts.
Import JsNumber Frame TimestampTerms.

Local Open Scope Z_scope.

Lemma is_digit_range (c : char) :
  is_digit c = true -> (48 <= c <= 57)%N.
Proof.
  unfold is_digit, in_range. rewrite andb_true_iff, !N.leb_le. tauto.
Qed.

Lemma digit_not_space (c : char) : is_digit c = true -> is_space c = false.
Proof.
  intros H. apply is_digit_range in H.
  unfold is_space, in_range, char_eqb; cbn [existsb].
  repeat match goal with
         | |- context [N.eqb c ?k] =>
             destruct (N.eqb_spec c k); [exfalso; lia|]
         end.
  cbn [orb]. apply andb_false_iff. left. apply N.leb_gt. lia.
Qed.

Lemma digit_not_colon (c : char) :
  is_digit c = true -> negb (char_eqb c 58%N) = true.
Proof.
  intros H. apply is_digit_range in H. apply negb_true_iff.
  unfold char_eqb. apply N.eqb_neq. lia.
Qed.

Lemma digits_without_colon (s : jsstring) :
  forallb is_digit s = true ->
  forallb (fun c => negb (char_eqb c 58%N)) s = true.
Proof.
  induction s as [|c s IH]; simpl; [reflexivity|].
  intros H; apply andb_true_iff in H as [Hc Hs].
  now rewrite (digit_not_colon c Hc), IH.
Qed.

Lemma drop_space_kept (s : jsstring) : head_kept s -> drop_space s = s.
Proof. destruct s as [|c s]; simpl; [reflexivity | now intros ->]. Qed.

Lemma trim_kept (s : jsstring) : head_kept s -> head_kept (rev s) -> trim s = s.
Proof.
  intros H1 H2. unfold trim.
  now rewrite (drop_space_kept s H1), (drop_space_kept _ H2), rev_involutive.
Qed.

Lemma digits_head_kept (s : jsstring) : forallb is_digit s = true -> head_kept s.
Proof.
  destruct s as [|c s]; simpl; [trivial|].
  intros H; apply andb_true_iff in H as [Hc _]. now apply digit_not_space.
Qed.

Lemma digits_rev (s : jsstring) :
  forallb is_digit s = true -> forallb is_digit (rev s) = true.
Proof.
  rewrite !forallb_forall. intros H c Hc. apply H. now apply in_rev.
Qed.

Lemma trim_digits (s : jsstring) : forallb is_digit s = true -> trim s = s.
Proof.
  intros H. apply trim_kept; apply digits_head_kept; [|apply digits_rev]; exact H.
Qed.

Lemma digits_value_from (acc : Z) (s : jsstring) :
  0 <= acc -> forallb is_digit s = true ->
  acc <= fold_left (fun a c => a * 10 + (Z.of_N c - 48)) s acc.
Proof.
  revert acc; induction s as [|c s IH]; simpl; intros acc Hacc H; [lia|].
  apply andb_true_iff in H as [Hc Hs]. apply is_digit_range in Hc.
  etransitivity; [|apply IH; [lia | exact Hs]]. lia.
Qed.

Lemma digits_value_nonneg (s : jsstring) :
  forallb is_digit s = true -> 0 <= digits_value s.
Proof. intros H. apply (@digits_value_from 0 s); [lia | exact H]. Qed.

Lemma exact_small (z : Z) : Z.abs z <= 9007199254740992 -> exact z = Int z.
Proof.
  intros H. unfold exact.
  change (2 ^ 53) with 9007199254740992.
  now apply Z.leb_le in H as ->.
Qed.

(** [Number] on a run of decimal digits, and on one with a minus sign. *)
Lemma Number_digits (s : jsstring) :
  forallb is_digit s = true -> Number s = exact (digits_value s).
Proof.
  intros H. unfold Number. rewrite (trim_digits s H).
  destruct s as [|c t]; [reflexivity|].
  simpl in H. now rewrite H.
Qed.

Lemma Number_negative (s : jsstring) :
  s <> [] -> forallb is_digit s = true ->
  Number (45%N :: s) = exact (- digits_value s).
Proof.
  intros Hne H. unfold Number.
  assert (Ht : trim (45%N :: s) = 45%N :: s).
  { apply trim_kept; [reflexivity|].
    simpl rev. pose proof (digits_rev s H) as Hr.
    destruct (rev s) as [|c r] eqn:Er.
    - apply (f_equal (@rev char)) in Er. rewrite rev_involutive in Er.
      now subst s.
    - simpl in Hr. apply andb_true_iff in Hr as [Hc _].
      now apply digit_not_space. }
  rewrite Ht. change (is_digit 45%N) with false.
  change (char_eqb 45%N 43%N) with false. change (char_eqb 45%N 45%N) with true.
  cbn [andb orb]. rewrite H. destruct s; [congruence | reflexivity].
Qed.

Lemma split_at_sep (sep : char) (a b : jsstring) :
  forallb (fun c => negb (char_eqb c sep)) a = true ->
  split sep (a ++ sep :: b) = a :: split sep b.
Proof.
  induction a as [|c a IH]; simpl.
  - now rewrite char_eqb_refl.
  - intros H; apply andb_true_iff in H as [Hc Ha].
    apply negb_true_iff in Hc. now rewrite Hc, (IH Ha).
Qed.

Lemma split_at_colon (a b : jsstring) :
  forallb is_digit a = true ->
  split 58%N (a ++ str ":" ++ b) = a :: split 58%N b.
Proof.
  intros H. exact (split_at_sep 58%N a b (digits_without_colon a H)).
Qed.

Lemma split_negative_at_colon (a b : jsstring) :
  forallb is_digit a = true ->
  split 58%N (str "-" ++ a ++ str ":" ++ b) = (str "-" ++ a) :: split 58%N b.
Proof.
  intros H. apply (split_at_sep 58%N (str "-" ++ a) b).
  simpl. exact (digits_without_colon a H).
Qed.

Lemma Number_minus (s : jsstring) :
  s <> [] -> forallb is_digit s = true ->
  Number (str "-" ++ s) = exact (- digits_value s).
Proof. exact (@Number_negative s). Qed.

(** As long as the total 3600h + 60m + s does not pass 2^53, up to which
    the arithmetic on doubles is exact, a timestamp of two or of three
    decimal components is read as 60m + s and as 3600h + 60m + s.  No
    component is checked against 59 or reduced: 90 seconds or 75 minutes
    are taken as they are.  A minus sign in front of the first component
    passes through to the result. *)
Theorem parseTimestamp_decimal (h m s : jsstring) :
  forallb is_digit h = true -> forallb is_digit m = true ->
  forallb is_digit s = true ->
  3600 * digits_value h + 60 * digits_value m + digits_value s
  <= 9007199254740992 ->
  parseTimestamp (m ++ str ":" ++ s)
  = Int (60 * digits_value m + digits_value s)
  /\ parseTimestamp (h ++ str ":" ++ m ++ str ":" ++ s)
     = Int (3600 * digits_value h + 60 * digits_value m + digits_value s)
  /\ (m <> [] ->
      parseTimestamp (str "-" ++ m ++ str ":" ++ s)
      = Int (- (60 * digits_value m) + digits_value s)).
Proof.
  intros Hh Hm Hs Hbound.
  pose proof (digits_value_nonneg h Hh) as Ph.
  pose proof (digits_value_nonneg m Hm) as Pm.
  pose proof (digits_value_nonneg s Hs) as Ps.
  pose proof (split_without_sep 58%N s (digits_without_colon s Hs)) as Ss.
  unfold parseTimestamp. split; [|split].
  - rewrite (split_at_colon m s Hm), Ss.
    cbn [map]. rewrite !Number_digits by assumption.
    repeat progress (rewrite ?exact_small by lia; cbn [mul add]).
    f_equal; lia.
  - rewrite (split_at_colon h _ Hh), (split_at_colon m s Hm), Ss.
    cbn [map]. rewrite !Number_digits by assumption.
    repeat progress (rewrite ?exact_small by lia; cbn [mul add]).
    f_equal; lia.
  - intros Hne.
    rewrite (split_negative_at_colon m s Hm), Ss.
    cbn [map]. rewrite (Number_minus Hne Hm), (Number_digits s Hs).
    repeat progress (rewrite ?exact_small by lia; cbn [mul add]).
    f_equal; lia.
Qed.

Lemma parseTimestamp_decimal_witness :
  let h := str "2" in
  let m := str "75" in
  let s := str "90" in
  forallb is_digit h = true /\ forallb is_digit m = true
  /\ forallb is_digit s = true
  /\ 3600 * digits_value h + 60 * digits_value m + digits_value s
     <= 9007199254740992
  /\ parseTimestamp (str "75:90") = Int 4590
  /\ parseTimestamp (str "2:75:90") = Int 11790
  /\ parseTimestamp (str "-75:90") = Int (-4410).
Proof.
  intros h m s.
  assert (H1 : forallb is_digit h = true) by reflexivity.
  assert (H2 : forallb is_digit m = true) by reflexivity.
  assert (H3 : forallb is_digit s = true) by reflexivity.
  assert (H4 : 3600 * digits_value h + 60 * digits_value m + digits_value s
               <= 9007199254740992) by (vm_compute; discriminate).
  destruct (parseTimestamp_decimal h m s H1 H2 H3 H4) as (Ha & Hb & Hc).
  assert (Hne : m <> []) by discriminate.
  exact (conj H1 (conj H2 (conj H3 (conj H4 (conj Ha (conj Hb (Hc Hne))))))).
Defined.

End TimestampFacts.

(** ** Base64 *)
Module Base64Facts.
Import Base64.

Lemma list_ind3 {A : Type} (P : list A -> Prop) :
  P [] -> (forall a, P [a]) -> (forall a b, P [a; b]) ->
  (forall a b c l, P l -> P (a :: b :: c :: l)) ->
  forall l, P l.
Proof.
  intros H0 H1 H2 H3 l.
  assert (H : P l /\ (forall a, P (a :: l)) /\ (forall a b, P (a :: b :: l))).
  { induction l as [|x l (IH0 & IH1 & IH2)]; [auto|].
    split; [apply IH1|]. split; [intros a; apply IH2|].
    intros a b. now apply H3. }
  apply H.
Qed.

Lemma sextet_in_alphabet (n : N) : In (sextet n) alphabet.
Proof.
  unfold sextet. apply nth_In.
  change (List.length alphabet) with 64%nat.
  pose proof (N.mod_lt n 64) as H. lia.
Qed.

(** The base64 text that the handlers put behind "data:...;base64," has
    four characters for every started group of three bytes, and all of
    them are letters of the base64 alphabet or the padding sign. *)
Theorem encode_shape (bytes : list N) :
  List.length (encode bytes) = 4 * ((List.length bytes + 2) / 3)
  /\ Forall (fun c => In c alphabet \/ c = pad) (encode bytes).
Proof.
  induction bytes as [| a | a b | a b c rest [IHlen IHall]] using list_ind3.
  - split; [reflexivity | constructor].
  - split; [reflexivity|]. cbn [encode].
    repeat (constructor; [first [left; apply sextet_in_alphabet | now right]|]).
    constructor.
  - split; [reflexivity|]. cbn [encode].
    repeat (constructor; [first [left; apply sextet_in_alphabet | now right]|]).
    constructor.
  - split.
    + cbn [encode List.length]. rewrite IHlen.
      replace (S (S (S (List.length rest))) + 2)
        with (List.length rest + 2 + 1 * 3) by lia.
      rewrite Nat.div_add by discriminate. lia.
    + cbn [encode].
      repeat (constructor; [left; apply sextet_in_alphabet|]). exact IHall.
Qed.

End Base64Facts.

(** ** The page against the servers *)
Module PageFacts.
Import Page PageTerms.

Lemma lookup_answer_cases (e : Lookup.env) (req : Lookup.request) :
  exists resp,
    fst (Lookup.POST e (Ok req) []) = Ok resp
    /\ ((exists v ti au th tr,
           resp = Response 200 (Lookup.VideoBody v ti au th tr)
           /\ List.length tr <= 5000)
        \/ (exists c m,
              resp = Response c (Lookup.ErrorBody m)
              /\ (c = 400 \/ c = 500) /\ In m lookup_errors)).
Proof.
  unfold Lookup.POST, try_catch, bind, await, ret, Lookup.do_fetch,
    Lookup.do_fetchTranscript, lookup_errors.
  assert (Herr : forall c m t,
            (c = 400 \/ c = 500) ->
            In m [str "URL is required"; str "Invalid YouTube URL";
                  str "Failed to fetch video metadata";
                  str "Failed to fetch video data"] ->
            exists resp,
              fst (Ok (Response c (Lookup.ErrorBody m)), t : Lookup.trace) = Ok resp
              /\ ((exists v ti au th tr,
                     resp = Response 200 (Lookup.VideoBody v ti au th tr)
                     /\ List.length tr <= 5000)
                  \/ (exists c0 m0,
                        resp = Response c0 (Lookup.ErrorBody m0)
                        /\ (c0 = 400 \/ c0 = 500)
                        /\ In m0 [str "URL is required"; str "Invalid YouTube URL";
                                  str "Failed to fetch video metadata";
                                  str "Failed to fetch video data"]))).
  { intros c m t Hc Hm. eexists; split; [reflexivity|].
    right. exists c, m. auto. }
  destruct (negb (truthy_opt (Lookup.url req)));
    [apply Herr; simpl; auto|].
  destruct (Lookup.extractVideoId _) as [v|]; [|apply Herr; simpl; auto].
  destruct (negb (truthy v)); [apply Herr; simpl; auto|].
  destruct (Lookup.fetch e (Lookup.oembedUrl v)) as [r|err];
    [|apply Herr; simpl; auto 6].
  destruct (negb (Lookup.ok r)); [apply Herr; simpl; auto 6|].
  destruct (Lookup.json r) as [md|err]; [|apply Herr; simpl; auto 6].
  destruct (Lookup.fetchTranscript e v) as [cs|err];
    (eexists; split; [reflexivity|left; eexists _, _, _, _, _; split;
       [reflexivity|unfold slice0; rewrite length_firstn; apply Nat.le_min_l]]).
Qed.

(** After a lookup round trip the page is settled: it is no longer
    loading, the image of an earlier video is gone, and either it shows a
    video whose transcript has at most 5000 characters and no error, or it
    shows no video and one of the four error texts of the lookup
    endpoint. *)
Theorem page_after_lookup (e : Lookup.env) (p : page) :
  let p' := lookup_round e p in
  loading p' = false /\ generating p' = generating p
  /\ url p' = url p /\ style p' = style p
  /\ generatedImage p' = None
  /\ ((exists v ti au th tr,
         videoData p' = Some (Lookup.VideoBody v ti au th tr)
         /\ error p' = [] /\ List.length tr <= 5000)
      \/ (videoData p' = None /\ In (error p') lookup_errors)).
Proof.
  unfold lookup_round.
  destruct (lookup_answer_cases e (lookup_request p)) as (resp & -> & Hcases).
  unfold fetchVideoData.
  destruct Hcases as [(v & ti & au & th & tr & -> & Hlen)
                     | (c & m & -> & Hc & Hm)].
  - change (response_ok (Response 200 (Lookup.VideoBody v ti au th tr)))
      with true.
    cbn [url videoData generatedImage style loading generating error body].
    repeat (split; [reflexivity|]).
    left. exists v, ti, au, th, tr. auto.
  - assert (Hok : response_ok (Response c (Lookup.ErrorBody m)) = false)
      by (destruct Hc as [-> | ->]; reflexivity).
    rewrite Hok.
    cbn [url videoData generatedImage style loading generating error body].
    repeat (split; [reflexivity|]).
    right. split; [reflexivity|].
    unfold lookup_errors in *.
    destruct Hm as [<-|[<-|[<-|[<-|[]]]]]; cbn; auto.
Qed.

Lemma generate_answer_cases (e : Generate.env) (req : Generate.request) :
  exists resp,
    fst (Generate.POST e (Ok req) []) = Ok resp
    /\ ((exists pr img, resp = Response 200 (GenAI.ImageBody pr img 1200 628))
        \/ (exists m, resp = Response 500 (GenAI.ErrorBody m))).
Proof.
  unfold Generate.POST, try_catch, bind, await, ret, Generate.do_generateContent.
  destruct (negb (truthy_opt (Generate.GEMINI_API_KEY e)));
    [eexists; split; [reflexivity|right; eexists; reflexivity]|].
  destruct (Generate.generateContent e _ _) as [r|err];
    [|eexists; split; [reflexivity|right; eexists; reflexivity]].
  eexists; split; [reflexivity|]. cbn [fst].
  unfold GenAI.respond.
  destruct (snd (GenAI.scan _ r)) as [d|]; [destruct (truthy d)|];
    [left; eexists _, _; reflexivity | right; eexists; reflexivity
     | right; eexists; reflexivity].
Qed.

(** A generate round trip from a page without video data does nothing.
    Otherwise the page ends not generating, with the same video; on
    success it shows the new image, reported as 1200 x 628, and no error;
    on failure it shows a non-empty error text and keeps the image it had
    before. *)
Theorem page_after_generate (e : Generate.env) (p : page) :
  let p' := generate_round e p in
  (videoData p = None -> p' = p)
  /\ (videoData p <> None ->
      generating p' = false /\ videoData p' = videoData p
      /\ loading p' = loading p /\ url p' = url p /\ style p' = style p
      /\ ((exists pr img,
             generatedImage p' = Some (GenAI.ImageBody pr img 1200 628)
             /\ error p' = [])
          \/ (generatedImage p' = generatedImage p /\ truthy (error p') = true))).
Proof.
  unfold generate_round. split.
  - now intros ->.
  - destruct (videoData p) as [data|] eqn:Hdata; [intros _|congruence].
    destruct (generate_answer_cases e (generate_request p data))
      as (resp & -> & Hcases).
    unfold generateImage. rewrite Hdata.
    destruct Hcases as [(pr & img & ->) | (m & ->)].
    + change (response_ok (Response 200 (GenAI.ImageBody pr img 1200 628)))
        with true.
      cbn [url videoData generatedImage style loading generating error body].
      repeat (split; [reflexivity|]).
      left. exists pr, img. auto.
    + change (response_ok (Response 500 (GenAI.ErrorBody m))) with false.
      cbn [url videoData generatedImage style loading generating error body].
      repeat (split; [reflexivity|]).
      right. split; [reflexivity|].
      unfold generate_error. destruct m; reflexivity.
Qed.

Lemma page_after_generate_witness :
  let old := GenAI.ImageBody (str "old") (str "data:image/png;base64,AAAA")
               1200 628 in
  let p := showing old in
  let e := GenerationWorlds.refusing_generate (JsError (str "429 quota exceeded")) in
  videoData p <> None
  /\ generating (generate_round e p) = false
  /\ videoData (generate_round e p) = videoData p
  /\ generate_round e p
     = PageState (url p) (videoData p) (Some old) (style p) false false
         (str "429 quota exceeded").
Proof.
  intros old p e.
  assert (H : videoData p <> None) by discriminate.
  destruct (proj2 (page_after_generate e p) H) as (Hg & Hv & _).
  exact (conj H (conj Hg (conj Hv eq_refl))).
Defined.

End PageFacts.

(** ** Identifier extraction: the identifier that is returned *)
Module ExtractionSpec.
Import Lookup LookupTerms ExtractionTerms LookupFacts ExtractionFacts.

(** When what follows [cls+] cannot fail, the run it takes is the longest
    one. *)
Lemma plus_maximal (cls : char -> bool) (s : jsstring)
  (k : jsstring -> option captures) (c : captures) :
  (forall x, k x <> None) -> plus cls s k = Some c ->
  exists taken rest,
    s = taken ++ rest /\ taken <> [] /\ forallb cls taken = true
    /\ stops cls rest /\ k rest = Some c.
Proof.
  intros Hk. induction s as [|a s IH]; simpl; [discriminate|].
  destruct (cls a) eqn:Ha; [|discriminate].
  destruct (plus cls s k) as [r|] eqn:Hp.
  - intros H; injection H as ->.
    destruct (IH eq_refl) as (taken & rest & -> & _ & Hall & Hstop & Hrest).
    exists (a :: taken), rest. simpl. rewrite Ha, Hall.
    repeat split; auto; discriminate.
  - intros Hrest. exists [a], s. simpl. rewrite Ha.
    repeat split; auto; try discriminate.
    destruct s as [|b s]; [exact I|]. simpl.
    destruct (cls b) eqn:Hb; [|reflexivity].
    exfalso. now apply (plus_total cls b s k Hb Hk).
Qed.

Lemma opening_attempt_maximal (l s : jsstring) (c : captures) :
  opening_attempt l s = Some c ->
  exists v rest,
    s = l ++ v ++ rest /\ v <> [] /\ forallb (none_of delimiters) v = true
    /\ stops (none_of delimiters) rest /\ capture 1 c = Some v.
Proof.
  unfold opening_attempt.
  destruct (strip_prefix l s) as [s'|] eqn:Hl; [|discriminate].
  apply strip_prefix_Some in Hl; subst s.
  intros H. apply plus_maximal in H as (v & rest & -> & Hne & Hall & Hstop & Hk);
    [|discriminate].
  exists v, rest. injection Hk as <-.
  rewrite consumed_app; simpl; auto.
Qed.

Lemma opening_attempt_none (l s : jsstring) :
  opens_with l s = false -> opening_attempt l s = None.
Proof.
  unfold opens_with, opening_attempt.
  destruct (strip_prefix l s) as [[|a r]|]; try reflexivity.
  simpl. now intros ->.
Qed.

Lemma opens_with_attempt (l s : jsstring) :
  opens_with l s = true -> opening_attempt l s <> None.
Proof.
  unfold opens_with.
  destruct (strip_prefix l s) as [[|a r]|] eqn:Hl; try discriminate.
  apply strip_prefix_Some in Hl; subst s.
  apply opening_attempt_some.
Qed.

Lemma opens_at_cases (s : jsstring) :
  opens_at s
  = opens_with (str "youtube.com/watch?v=") s
    || (opens_with (str "youtu.be/") s
        || (opens_with (str "youtube.com/embed/") s || false)).
Proof. reflexivity. Qed.

(** An attempt succeeds exactly where an opening with a first character
    lies. *)
Lemma attempt_none (b : bool) (s : jsstring) :
  opens_at s = false -> attempt url_pattern b s = None.
Proof.
  rewrite opens_at_cases, attempt_url_alternatives.
  intros H. apply orb_false_iff in H as [H1 H].
  apply orb_false_iff in H as [H2 H]. apply orb_false_iff in H as [H3 _].
  now rewrite !opening_attempt_none.
Qed.

Lemma attempt_some (b : bool) (s : jsstring) :
  opens_at s = true -> attempt url_pattern b s <> None.
Proof.
  rewrite opens_at_cases, attempt_url_alternatives. intros H.
  destruct (opening_attempt (str "youtube.com/watch?v=") s) eqn:A1;
    [discriminate|].
  destruct (opening_attempt (str "youtu.be/") s) eqn:A2; [discriminate|].
  destruct (opens_with (str "youtube.com/watch?v=") s) eqn:O1.
  { now apply opens_with_attempt in O1. }
  destruct (opens_with (str "youtu.be/") s) eqn:O2.
  { now apply opens_with_attempt in O2. }
  destruct (opens_with (str "youtube.com/embed/") s) eqn:O3; [|discriminate].
  now apply opens_with_attempt.
Qed.

Lemma attempt_maximal (b : bool) (s : jsstring) (c : captures) :
  attempt url_pattern b s = Some c ->
  exists l v rest,
    In l shapes /\ s = l ++ v ++ rest /\ v <> []
    /\ forallb (none_of delimiters) v = true
    /\ stops (none_of delimiters) rest /\ capture 1 c = Some v.
Proof.
  rewrite attempt_url_alternatives. unfold shapes.
  destruct (opening_attempt (str "youtube.com/watch?v=") s) as [c1|] eqn:H1.
  - intros H; injection H as <-.
    apply opening_attempt_maximal in H1 as (v & rest & ? & ? & ? & ? & ?).
    exists (str "youtube.com/watch?v="), v, rest; simpl; auto 7.
  - destruct (opening_attempt (str "youtu.be/") s) as [c2|] eqn:H2.
    + intros H; injection H as <-.
      apply opening_attempt_maximal in H2 as (v & rest & ? & ? & ? & ? & ?).
      exists (str "youtu.be/"), v, rest; simpl; auto 7.
    + intros H3.
      apply opening_attempt_maximal in H3 as (v & rest & ? & ? & ? & ? & ?).
      exists (str "youtube.com/embed/"), v, rest; simpl; auto 8.
Qed.

(** The match that the search returns is the one at the first position
    where an attempt succeeds. *)
Lemma search_first (b : bool) (s : jsstring) (c : captures) :
  search url_pattern b s = Some c ->
  exists before s',
    s = before ++ s' /\ attempt url_pattern false s' = Some c
    /\ opens_before (List.length before) s = false.
Proof.
  revert b. induction s as [|a s IH]; intros b; rewrite search_unfold.
  - destruct (attempt url_pattern b []) as [c'|] eqn:Ha; [|discriminate].
    intros H; injection H as <-.
    exists [], []. rewrite (attempt_url_any_start false b). auto.
  - destruct (attempt url_pattern b (a :: s)) as [c'|] eqn:Ha.
    + intros H; injection H as <-.
      exists [], (a :: s). rewrite (attempt_url_any_start false b). auto.
    + intros H. apply IH in H as (before & s' & -> & Hs' & Hfirst).
      exists (a :: before), s'. repeat split; auto.
      cbn [List.length opens_before app]. rewrite Hfirst, orb_false_r.
      destruct (opens_at (a :: before ++ s')) eqn:Ho; [|reflexivity].
      exfalso. now apply (attempt_some b) in Ho.
Qed.

Lemma search_skips (b : bool) (before s : jsstring) :
  opens_before (List.length before) (before ++ s) = false ->
  search url_pattern b (before ++ s) = search url_pattern false s.
Proof.
  revert b. induction before as [|a before IH]; intros b H.
  - apply search_url_any_start.
  - cbn [List.length opens_before app] in H.
    apply orb_false_iff in H as [Ho Hrest].
    simpl app. rewrite search_unfold, (attempt_none b _ Ho). now apply IH.
Qed.

Lemma search_none_iff (b : bool) (s : jsstring) :
  search url_pattern b s = None <-> has_opening s = false.
Proof.
  unfold has_opening. revert b.
  induction s as [|a s IH]; intros b; rewrite search_unfold.
  - change (opens_before 1 []) with false.
    rewrite (attempt_none b []) by reflexivity. tauto.
  - cbn [List.length]. change (opens_before (S (S (List.length s))) (a :: s))
      with (opens_at (a :: s) || opens_before (S (List.length s)) s).
    destruct (opens_at (a :: s)) eqn:Ho.
    + pose proof (attempt_some b _ Ho) as Hsome.
      destruct (attempt url_pattern b (a :: s)); [|congruence].
      simpl. split; discriminate.
    + rewrite (attempt_none b _ Ho). simpl. apply IH.
Qed.

Lemma url_run (before l run rest : jsstring) :
  In l shapes -> run <> [] -> forallb (none_of delimiters) run = true ->
  stops (none_of delimiters) rest ->
  opens_before (List.length before) (before ++ l ++ run ++ rest) = false ->
  extractVideoId (before ++ l ++ run ++ rest) = Some run.
Proof.
  intros Hl Hne Hall Hstop Hfirst.
  rewrite extractVideoId_unfold. unfold jsmatch.
  rewrite (search_skips true _ _ Hfirst), (search_url_any_start false true).
  pose proof (@jsmatch_url_shape [] l run rest eq_refl Hl Hne Hall Hstop) as H.
  unfold jsmatch in H. simpl app in H. now rewrite H.
Qed.

(** C4, amended: an identifier that [extractVideoId] returns is exactly 11
    characters long when the string holds none of the three openings with a
    character after it: the string is then a bare token and is returned
    whole.  From a URL the identifier is not bound to 11 characters: it is
    the whole run of characters other than [&], newline, [?], [#] that
    follows the first opening of the string, up to the next delimiter or
    the end.  So the bare 11-character identifier and every URL in which
    the first opening is followed by that identifier and then by nothing
    or a delimiter yield the same identifier. *)
Theorem extractVideoId_accepted (s v before l run rest id : jsstring) :
  (extractVideoId s = Some v ->
   (has_opening s = true ->
    exists before0 l0 rest0,
      In l0 shapes /\ s = before0 ++ l0 ++ v ++ rest0 /\ v <> []
      /\ forallb (none_of delimiters) v = true
      /\ stops (none_of delimiters) rest0
      /\ opens_before (List.length before0) s = false)
   /\ (has_opening s = false ->
       v = s /\ List.length v = 11 /\ forallb id_char v = true))
  /\ (In l shapes -> run <> [] -> forallb (none_of delimiters) run = true ->
      stops (none_of delimiters) rest ->
      opens_before (List.length before) (before ++ l ++ run ++ rest) = false ->
      extractVideoId (before ++ l ++ run ++ rest) = Some run)
  /\ (List.length id = 11 -> forallb id_char id = true ->
      extractVideoId id = Some id
      /\ (In l shapes -> stops (none_of delimiters) rest ->
          opens_before (List.length before) (before ++ l ++ id ++ rest) = false ->
          extractVideoId (before ++ l ++ id ++ rest) = Some id)).
Proof.
  split; [|split].
  - intros Hv. split.
    + intros Hopen.
      rewrite extractVideoId_unfold in Hv. unfold jsmatch in Hv.
      destruct (search url_pattern true s) as [m|] eqn:Hm.
      * apply search_first in Hm as (before0 & s' & -> & Hs' & Hfirst).
        apply attempt_maximal in Hs'
          as (l0 & v0 & rest0 & Hl & -> & Hne & Hall & Hstop & Hc).
        rewrite Hc in Hv; injection Hv as ->.
        exists before0, l0, rest0. repeat split; auto.
      * apply search_none_iff in Hm. congruence.
    + intros Hnone. apply (search_none_iff true) in Hnone.
      now apply extractVideoId_bare in Hv.
  - apply url_run.
  - intros Hlen Hall.
    assert (Hne : id <> []) by (intros ->; discriminate).
    split.
    + rewrite extractVideoId_unfold. unfold jsmatch at 1.
      rewrite search_url_id_chars by exact Hall.
      now rewrite jsmatch_bare, attempt_bare_run.
    + intros Hl Hstop Hfirst.
      apply url_run; auto using id_chars_not_delimiters.
Qed.

Lemma extractVideoId_accepted_witness :
  let id := str "dQw4w9WgXcQ" in
  let s := str "see youtu.be/dQw4w9WgXcQ/live?t=9&u=youtu.be/other" in
  let v := str "dQw4w9WgXcQ/live" in
  let before := str "https://www." in
  let l := str "youtube.com/embed/" in
  let run := str "dQw4w9WgXcQextra" in
  let rest := str "?start=30" in
  extractVideoId s = Some v /\ has_opening s = true
  /\ In l shapes /\ run <> [] /\ forallb (none_of delimiters) run = true
  /\ stops (none_of delimiters) rest
  /\ opens_before (List.length before) (before ++ l ++ run ++ rest) = false
  /\ List.length id = 11 /\ forallb id_char id = true
  /\ opens_before (List.length before) (before ++ l ++ id ++ rest) = false
  /\ (exists before0 l0 rest0,
        In l0 shapes /\ s = before0 ++ l0 ++ v ++ rest0 /\ v <> []
        /\ forallb (none_of delimiters) v = true
        /\ stops (none_of delimiters) rest0
        /\ opens_before (List.length before0) s = false)
  /\ extractVideoId (before ++ l ++ run ++ rest) = Some run
  /\ extractVideoId id = Some id
  /\ extractVideoId (before ++ l ++ id ++ rest) = Some id.
Proof.
  intros id s v before l run rest.
  assert (H1 : extractVideoId s = Some v) by reflexivity.
  assert (H2 : has_opening s = true) by reflexivity.
  assert (H3 : In l shapes) by (right; right; left; reflexivity).
  assert (H4 : run <> []) by discriminate.
  assert (H5 : forallb (none_of delimiters) run = true) by reflexivity.
  assert (H6 : stops (none_of delimiters) rest) by reflexivity.
  assert (H7 : opens_before (List.length before) (before ++ l ++ run ++ rest)
               = false) by reflexivity.
  assert (H8 : List.length id = 11) by reflexivity.
  assert (H9 : forallb id_char id = true) by reflexivity.
  assert (H10 : opens_before (List.length before) (before ++ l ++ id ++ rest)
                = false) by reflexivity.
  destruct (extractVideoId_accepted s v before l run rest id) as (Ha & Hb & Hc).
  destruct (Ha H1) as (Hurl & _).
  destruct (Hc H8 H9) as (Hbare & Hshape).
  exact (conj H1 (conj H2 (conj H3 (conj H4 (conj H5 (conj H6 (conj H7
           (conj H8 (conj H9 (conj H10 (conj (Hurl H2)
              (conj (Hb H3 H4 H5 H6 H7)
                 (conj Hbare (Hshape H3 H6 H10)))))))))))))).
Defined.

End ExtractionSpec.
